(** * WellcomeML: the catalogue loaders and the record flattener

    A shallow embedding of [scripts/loading.py] (the parsing loop of
    [load_wellcome_data] and the flattener [extract_all_fields]), of
    [data/loading.py] ([load_data]) and of [scripts/formating.py]
    ([format_row]), with the properties their specification states about
    them and further properties of the code.

    Python values are embedded as the JSON values [json.loads] returns.
    A Python exception is a [Raise] in the [res] monad; the dictionary
    [parsed] that [extract_all_fields] fills in is a finite map that the
    statements of the function thread through. *)

From Stdlib Require Import ZArith String Ascii List DecimalString Bool Lia.
From stdpp Require Import gmap strings list fin_maps.

Open Scope string_scope.
Set Warnings "-register-all".

(** ** Values *)

(** The values [json.loads] builds. A string is a sequence of 8-bit
    characters, a number is an integer, and an object is the list of its
    items in insertion order (a Python [dict] keeps that order; its keys are
    pairwise distinct, and [dict_lookup] reads the first item of a key). *)
Inductive json : Type :=
  | JNull
  | JBool (b : bool)
  | JNum (z : Z)
  | JStr (s : string)
  | JArr (l : list json)
  | JObj (kv : list (string * json)).

(** The exceptions the modelled code can raise. *)
Inductive exn : Type :=
  | AttributeError
  | TypeError
  | KeyError
  | IndexError
  | JSONDecodeError
  | FileNotFoundError
  | IsADirectoryError
  | OSError.

Inductive res (A : Type) : Type :=
  | Ok (a : A)
  | Raise (e : exn).

Arguments Ok {A} a.
Arguments Raise {A} e.

#[global] Instance res_ret : MRet res := fun A a => Ok a.

#[global] Instance res_bind : MBind res := fun A B f m =>
  match m with
  | Ok a => f a
  | Raise e => Raise e
  end.

(** The dictionary [parsed] of [extract_all_fields]. *)
Abbreviation flat := (gmap string json).

(** ** Python's built-in operations on these values *)

Fixpoint dict_lookup (k : string) (kv : list (string * json)) : option json :=
  match kv with
  | [] => None
  | (k', v) :: kv' => if String.eqb k k' then Some v else dict_lookup k kv'
  end.

(** [v.get(k, d)]: only a [dict] has the method. *)
Definition py_get (v : json) (k : string) (d : json) : res json :=
  match v with
  | JObj kv => Ok (default d (dict_lookup k kv))
  | _ => Raise AttributeError
  end.

(** The truth value of [v] in [if v:]. *)
Definition truthy (v : json) : bool :=
  match v with
  | JNull => false
  | JBool b => b
  | JNum z => negb (Z.eqb z 0)
  | JStr s => negb (String.eqb s "")
  | JArr l => negb (Nat.eqb (length l) 0)
  | JObj kv => negb (Nat.eqb (length kv) 0)
  end.

Definition char_str (c : ascii) : json := JStr (String c EmptyString).

(** [iter(v)]: the elements of a list, the characters of a string, the keys
    of a dict; nothing else is iterable. *)
Definition py_iter (v : json) : res (list json) :=
  match v with
  | JArr l => Ok l
  | JStr s => Ok (map char_str (list_ascii_of_string s))
  | JObj kv => Ok (map (fun p => JStr (fst p)) kv)
  | _ => Raise TypeError
  end.

(** [len(v)]. *)
Definition py_len (v : json) : res json :=
  match v with
  | JArr l => Ok (JNum (Z.of_nat (length l)))
  | JStr s => Ok (JNum (Z.of_nat (String.length s)))
  | JObj kv => Ok (JNum (Z.of_nat (length kv)))
  | _ => Raise TypeError
  end.

(** [v[0]]. *)
Definition py_item0 (v : json) : res json :=
  match v with
  | JArr (x :: _) => Ok x
  | JArr [] => Raise IndexError
  | JStr (String c _) => Ok (char_str c)
  | JStr EmptyString => Raise IndexError
  | JObj _ => Raise KeyError
  | _ => Raise TypeError
  end.

Fixpoint is_prefix (p s : string) : bool :=
  match p, s with
  | EmptyString, _ => true
  | String a p', String b s' => Ascii.eqb a b && is_prefix p' s'
  | String _ _, EmptyString => false
  end.

(** [p in s] for two strings. *)
Fixpoint is_substring (p s : string) : bool :=
  is_prefix p s ||
  match s with
  | EmptyString => false
  | String _ s' => is_substring p s'
  end.

(** [v == s] for a string literal [s]. *)
Definition py_eq_str (v : json) (s : string) : bool :=
  match v with
  | JStr s' => String.eqb s' s
  | _ => false
  end.

(** [k in v] for a string literal [k]. *)
Definition py_in (k : string) (v : json) : res bool :=
  match v with
  | JObj kv => Ok (match dict_lookup k kv with Some _ => true | None => false end)
  | JArr l => Ok (existsb (fun x => py_eq_str x k) l)
  | JStr s => Ok (is_substring k s)
  | _ => Raise TypeError
  end.

(** [v[k]] for a string literal [k]. *)
Definition py_getitem (v : json) (k : string) : res json :=
  match v with
  | JObj kv =>
      match dict_lookup k kv with
      | Some x => Ok x
      | None => Raise KeyError
      end
  | _ => Raise TypeError
  end.

(** [isinstance(v, str)]. *)
Definition is_str (v : json) : bool :=
  match v with
  | JStr _ => true
  | _ => false
  end.

Fixpoint all_str (l : list json) : res (list string) :=
  match l with
  | [] => Ok []
  | JStr s :: l' => ss ← all_str l'; Ok (s :: ss)
  | _ :: _ => Raise TypeError
  end.

(** [sep.join(v)]: [v] is iterated, and every item has to be a string. *)
Definition py_join (sep : string) (v : json) : res string :=
  l ← py_iter v;
  ss ← all_str l;
  Ok (String.concat sep ss).

(** [c.lower()] on one character: the letters A-Z and the upper-case
    letters of the upper half (192-222 but the multiplication sign 215). *)
Definition lower_char (c : ascii) : ascii :=
  let n := nat_of_ascii c in
  if ((65 <=? n) && (n <=? 90) || (192 <=? n) && (n <=? 222) && negb (n =? 215))%nat
  then ascii_of_nat (n + 32)
  else c.

Fixpoint lower (s : string) : string :=
  match s with
  | EmptyString => EmptyString
  | String c s' => String (lower_char c) (lower s')
  end.

(** [v.lower()]: only a [str] has the method. *)
Definition py_lower (v : json) : res string :=
  match v with
  | JStr s => Ok (lower s)
  | _ => Raise AttributeError
  end.

(** *** Formatting a value in an f-string *)

Definition quote1 : ascii := "039"%char.
Definition quote2 : ascii := "034"%char.
Definition backslash : ascii := "092"%char.

Definition has_char (c : ascii) (s : string) : bool :=
  existsb (Ascii.eqb c) (list_ascii_of_string s).

Definition hex_digit (n : nat) : ascii :=
  nth n (list_ascii_of_string "0123456789abcdef") "0"%char.

(** One character inside [repr] of a string quoted with [q]. *)
Definition repr_char (q c : ascii) : string :=
  let n := nat_of_ascii c in
  if Ascii.eqb c q || Ascii.eqb c backslash then String backslash (String c "")
  else if (n =? 9)%nat then String backslash "t"
  else if (n =? 10)%nat then String backslash "n"
  else if (n =? 13)%nat then String backslash "r"
  else if ((n <? 32) || (n =? 127) || (128 <=? n) && (n <=? 160) || (n =? 173))%nat
  then String backslash
         (String "x" (String (hex_digit (n / 16)) (String (hex_digit (n mod 16)) "")))
  else String c "".

(** [repr(s)] of a string: single quotes, unless the string has a single
    quote and no double quote. *)
Definition repr_str (s : string) : string :=
  let q := if has_char quote1 s && negb (has_char quote2 s) then quote2 else quote1 in
  String q (String.concat "" (map (repr_char q) (list_ascii_of_string s))) +:+ String q "".

Fixpoint py_repr (v : json) : string :=
  match v with
  | JNull => "None"
  | JBool true => "True"
  | JBool false => "False"
  | JNum z => NilZero.string_of_int (Z.to_int z)
  | JStr s => repr_str s
  | JArr l => "[" +:+ String.concat ", " (map py_repr l) +:+ "]"
  | JObj kv =>
      "{" +:+ String.concat ", "
                (map (fun p => repr_str (fst p) +:+ ": " +:+ py_repr (snd p)) kv) +:+ "}"
  end.

(** [f"{v}"]: a string is copied, any other value is printed as [repr]. *)
Definition py_format (v : json) : string :=
  match v with
  | JStr s => s
  | _ => py_repr v
  end.

(** *** Iteration order of a [set] of strings

    [set(l)] keeps one copy of each string of [l]; the order in which the
    set is iterated is fixed by the interpreter and is not specified. *)
Record set_iteration : Type := {
  set_list : list string -> list string;
  set_list_NoDup : forall l, NoDup (set_list l);
  set_list_elem : forall l x, x ∈ set_list l <-> x ∈ l
}.

(** One such order: that of the first occurrences. *)
Definition first_occurrence : set_iteration :=
  {| set_list := remove_dups;
     set_list_NoDup := NoDup_remove_dups;
     set_list_elem := fun l x => elem_of_remove_dups l x |}.

(** [sep.join(set(v))]: an unhashable item makes [set] raise [TypeError], an
    item that is not a string makes [join] raise [TypeError]. *)
Definition py_join_set (so : set_iteration) (sep : string) (v : json) : res string :=
  l ← py_iter v;
  ss ← all_str l;
  Ok (String.concat sep (set_list so ss)).

(** *** Statements on [parsed] *)

(** [parsed[k]]. *)
Definition dict_getitem (parsed : flat) (k : string) : res json :=
  match parsed !! k with
  | Some v => Ok v
  | None => Raise KeyError
  end.

(** [parsed[k].append(x)]. *)
Definition list_append (k : string) (x : json) (parsed : flat) : res flat :=
  v ← dict_getitem parsed k;
  match v with
  | JArr l => Ok (<[k := JArr (l ++ [x])]> parsed)
  | _ => Raise AttributeError
  end.

(** [for x in l: body], the state being [parsed]. *)
Fixpoint for_each (body : json -> flat -> res flat) (l : list json) (parsed : flat)
  : res flat :=
  match l with
  | [] => Ok parsed
  | x :: l' => parsed' ← body x parsed; for_each body l' parsed'
  end.

Definition py_for (v : json) (body : json -> flat -> res flat) (parsed : flat)
  : res flat :=
  l ← py_iter v;
  for_each body l parsed.

(** ** The flattener: [extract_all_fields] (scripts/loading.py, 97-355) *)

(** The dictionary literal of lines 101-170. *)
Definition initial_parsed (work : json) : res flat :=
  v_id ← py_get work "id" JNull;
  v_title ← py_get work "title" JNull;
  wt ← py_get work "workType" (JObj []);
  v_workType ← py_get wt "label" JNull;
  wt' ← py_get work "workType" (JObj []);
  v_workType_id ← py_get wt' "id" JNull;
  v_description ← py_get work "description" JNull;
  v_physicalDescription ← py_get work "physicalDescription" JNull;
  v_lettering ← py_get work "lettering" JNull;
  v_edition ← py_get work "edition" JNull;
  v_referenceNumber ← py_get work "referenceNumber" JNull;
  Ok (list_to_map
        [ ("id", v_id);
          ("title", v_title);
          ("alternativeTitles", JNull);
          ("workType", v_workType);
          ("workType_id", v_workType_id);
          ("description", v_description);
          ("physicalDescription", v_physicalDescription);
          ("lettering", v_lettering);
          ("edition", v_edition);
          ("production_date", JNull);
          ("production_date_from", JNull);
          ("production_date_to", JNull);
          ("production_places", JArr []);
          ("production_agents", JArr []);
          ("production_function", JNull);
          ("contributors", JArr []);
          ("contributor_roles", JArr []);
          ("contributor_ids", JArr []);
          ("subjects", JArr []);
          ("subject_ids", JArr []);
          ("genres", JArr []);
          ("genre_ids", JArr []);
          ("languages", JArr []);
          ("language_ids", JArr []);
          ("identifiers", JArr []);
          ("isbn", JNull);
          ("issn", JNull);
          ("sierra_system_number", JNull);
          ("wellcome_library_number", JNull);
          ("notes", JArr []);
          ("note_types", JArr []);
          ("thumbnail_url", JNull);
          ("has_digitized_items", JBool false);
          ("items_count", JNum 0);
          ("availability_status", JArr []);
          ("partOf_title", JNull);
          ("partOf_id", JNull);
          ("parts_count", JNum 0);
          ("precededBy_title", JNull);
          ("precededBy_id", JNull);
          ("succeededBy_title", JNull);
          ("succeededBy_id", JNull);
          ("holdings_count", JNum 0);
          ("referenceNumber", v_referenceNumber);
          ("images_count", JNum 0) ]).

(** Lines 172-175. *)
Definition alternative_titles (work : json) (parsed : flat) : res flat :=
  alt_titles ← py_get work "alternativeTitles" (JArr []);
  if truthy alt_titles then
    s ← py_join "; " alt_titles;
    Ok (<["alternativeTitles" := JStr s]> parsed)
  else Ok parsed.

(** The body shared by the loops of lines 200-202 and 206-208:
    [if 'label' in x: parsed[k].append(x['label'])]. *)
Definition append_label (k : string) (x : json) (parsed : flat) : res flat :=
  has_label ← py_in "label" x;
  if has_label : bool then
    label ← py_getitem x "label";
    list_append k label parsed
  else Ok parsed.

(** Lines 183-184. *)
Definition production_function (prod : json) (parsed : flat) : res flat :=
  has_function ← py_in "function" prod;
  if has_function : bool then
    function ← py_getitem prod "function";
    label ← py_get function "label" JNull;
    Ok (<["production_function" := label]> parsed)
  else Ok parsed.

(** Lines 187-196. *)
Definition production_dates (prod : json) (parsed : flat) : res flat :=
  dates ← py_get prod "dates" (JArr []);
  if truthy dates then
    date_obj ← py_item0 dates;
    label ← py_get date_obj "label" JNull;
    let parsed := <["production_date" := label]> parsed in
    has_range ← py_in "range" date_obj;
    if has_range : bool then
      range_obj ← py_getitem date_obj "range";
      from ← py_get range_obj "from" JNull;
      let parsed := <["production_date_from" := from]> parsed in
      to ← py_get range_obj "to" JNull;
      Ok (<["production_date_to" := to]> parsed)
    else Ok parsed
  else Ok parsed.

(** Lines 177-208. *)
Definition production_info (work : json) (parsed : flat) : res flat :=
  production ← py_get work "production" (JArr []);
  if truthy production then
    prod ← py_item0 production;
    parsed ← production_function prod parsed;
    parsed ← production_dates prod parsed;
    places ← py_get prod "places" (JArr []);
    parsed ← py_for places (append_label "production_places") parsed;
    agents ← py_get prod "agents" (JArr []);
    py_for agents (append_label "production_agents") parsed
  else Ok parsed.

(** The body of the loop of lines 212-227. *)
Definition contributor (contrib : json) (parsed : flat) : res flat :=
  agent ← py_get contrib "agent" (JObj []);
  has_label ← py_in "label" agent;
  if has_label : bool then
    label ← py_getitem agent "label";
    parsed ← list_append "contributors" label parsed;
    has_id ← py_in "id" agent;
    parsed ← (if has_id : bool then
                 id ← py_getitem agent "id";
                 list_append "contributor_ids" id parsed
               else Ok parsed);
    roles ← py_get contrib "roles" (JArr []);
    role_label ← (if truthy roles then
                     role ← py_item0 roles;
                     py_get role "label" (JStr "Unknown")
                   else Ok (JStr "Unknown"));
    list_append "contributor_roles" role_label parsed
  else Ok parsed.

(** Lines 210-227. *)
Definition contributors (work : json) (parsed : flat) : res flat :=
  contributors ← py_get work "contributors" (JArr []);
  py_for contributors contributor parsed.

(** The body the loops of lines 231-235, 239-243 and 247-251 share, the
    keys of [parsed] apart:
    [if 'label' in x: parsed[labels].append(x['label']);
                      if 'id' in x: parsed[ids].append(x['id'])]. *)
Definition labelled (labels ids : string) (x : json) (parsed : flat) : res flat :=
  has_label ← py_in "label" x;
  if has_label : bool then
    label ← py_getitem x "label";
    parsed ← list_append labels label parsed;
    has_id ← py_in "id" x;
    if has_id : bool then
      id ← py_getitem x "id";
      list_append ids id parsed
    else Ok parsed
  else Ok parsed.

(** Lines 229-235. *)
Definition subjects (work : json) (parsed : flat) : res flat :=
  subjects ← py_get work "subjects" (JArr []);
  py_for subjects (labelled "subjects" "subject_ids") parsed.

(** Lines 237-243. *)
Definition genres (work : json) (parsed : flat) : res flat :=
  genres ← py_get work "genres" (JArr []);
  py_for genres (labelled "genres" "genre_ids") parsed.

(** Lines 245-251. *)
Definition languages (work : json) (parsed : flat) : res flat :=
  languages ← py_get work "languages" (JArr []);
  py_for languages (labelled "languages" "language_ids") parsed.

(** The body of the loop of lines 255-270. *)
Definition identifier (ident : json) (parsed : flat) : res flat :=
  identifierType ← py_get ident "identifierType" (JObj []);
  id_type ← py_get identifierType "id" (JStr "");
  id_value ← py_get ident "value" (JStr "");
  if truthy id_type && truthy id_value then
    parsed ← list_append "identifiers"
               (JStr (py_format id_type +:+ ":" +:+ py_format id_value)) parsed;
    if py_eq_str id_type "isbn" then Ok (<["isbn" := id_value]> parsed)
    else if py_eq_str id_type "issn" then Ok (<["issn" := id_value]> parsed)
    else if py_eq_str id_type "sierra-system-number"
    then Ok (<["sierra_system_number" := id_value]> parsed)
    else
      lowered ← py_lower id_type;
      if is_substring "wellcome" lowered
      then Ok (<["wellcome_library_number" := id_value]> parsed)
      else Ok parsed
  else Ok parsed.

(** Lines 253-270. *)
Definition identifiers (work : json) (parsed : flat) : res flat :=
  identifiers ← py_get work "identifiers" (JArr []);
  py_for identifiers identifier parsed.

(** The body of the loop of lines 279-281. *)
Definition note_content (content : json) (parsed : flat) : res flat :=
  if is_str content then list_append "notes" content parsed else Ok parsed.

(** The body of the loop of lines 274-281. *)
Definition note (note : json) (parsed : flat) : res flat :=
  noteType ← py_get note "noteType" (JObj []);
  note_type ← py_get noteType "label" (JStr "general");
  parsed ← list_append "note_types" note_type parsed;
  contents ← py_get note "contents" (JArr []);
  py_for contents note_content parsed.

(** Lines 272-281. *)
Definition notes (work : json) (parsed : flat) : res flat :=
  notes ← py_get work "notes" (JArr []);
  py_for notes note parsed.

(** Lines 283-286. *)
Definition thumbnail (work : json) (parsed : flat) : res flat :=
  thumbnail ← py_get work "thumbnail" (JObj []);
  if truthy thumbnail then
    url ← py_get thumbnail "url" JNull;
    Ok (<["thumbnail_url" := url]> parsed)
  else Ok parsed.

(** The body of the loop of lines 302-306. *)
Definition access_condition (condition : json) (parsed : flat) : res flat :=
  has_status ← py_in "status" condition;
  if has_status : bool then
    status_obj ← py_getitem condition "status";
    status ← py_get status_obj "label" JNull;
    if truthy status then list_append "availability_status" status parsed
    else Ok parsed
  else Ok parsed.

(** The body of the loop of lines 295-306. *)
Definition location (loc : json) (parsed : flat) : res flat :=
  locationType ← py_get loc "locationType" (JObj []);
  location_id ← py_get locationType "id" JNull;
  let parsed :=
    if py_eq_str location_id "online"
    then <["has_digitized_items" := JBool true]> parsed
    else parsed in
  access_conditions ← py_get loc "accessConditions" (JArr []);
  py_for access_conditions access_condition parsed.

(** The body of the loop of lines 293-306. *)
Definition item (item : json) (parsed : flat) : res flat :=
  locations ← py_get item "locations" (JArr []);
  py_for locations location parsed.

(** Lines 288-306. *)
Definition items (work : json) (parsed : flat) : res flat :=
  items ← py_get work "items" (JArr []);
  items_count ← py_len items;
  let parsed := <["items_count" := items_count]> parsed in
  py_for items item parsed.

(** [parsed[k] = len(work.get(src, []))]: lines 309-310, 319-320, 335-336. *)
Definition count_of (src k : string) (work : json) (parsed : flat) : res flat :=
  l ← py_get work src (JArr []);
  n ← py_len l;
  Ok (<[k := n]> parsed).

(** Lines 313-316, 323-326 and 329-332, the keys apart:
    [if src in work and work[src]:
       x = work[src][0]; parsed[title] = x.get('title'); parsed[id] = x.get('id')]. *)
Definition related (src title id : string) (work : json) (parsed : flat) : res flat :=
  present ← py_in src work;
  nonempty ← (if present : bool then v ← py_getitem work src; Ok (truthy v)
               else Ok false);
  if nonempty : bool then
    v ← py_getitem work src;
    x ← py_item0 v;
    x_title ← py_get x "title" JNull;
    let parsed := <[title := x_title]> parsed in
    x_id ← py_get x "id" JNull;
    Ok (<[id := x_id]> parsed)
  else Ok parsed.

(** One line of 339-352:
    [parsed[k] = sep.join(parsed[k]) if parsed[k] else None]. *)
Definition join_field (sep k : string) (parsed : flat) : res flat :=
  cond ← dict_getitem parsed k;
  if truthy cond then
    v ← dict_getitem parsed k;
    s ← py_join sep v;
    Ok (<[k := JStr s]> parsed)
  else Ok (<[k := JNull]> parsed).

(** Line 353. *)
Definition join_availability (so : set_iteration) (parsed : flat) : res flat :=
  cond ← dict_getitem parsed "availability_status";
  if truthy cond then
    v ← dict_getitem parsed "availability_status";
    s ← py_join_set so "; " v;
    Ok (<["availability_status" := JStr s]> parsed)
  else Ok (<["availability_status" := JNull]> parsed).

(** Lines 338-353. *)
Definition lists_to_strings (so : set_iteration) (parsed : flat) : res flat :=
  parsed ← join_field "; " "production_places" parsed;
  parsed ← join_field "; " "production_agents" parsed;
  parsed ← join_field "; " "contributors" parsed;
  parsed ← join_field "; " "contributor_roles" parsed;
  parsed ← join_field "; " "contributor_ids" parsed;
  parsed ← join_field "; " "subjects" parsed;
  parsed ← join_field "; " "subject_ids" parsed;
  parsed ← join_field "; " "genres" parsed;
  parsed ← join_field "; " "genre_ids" parsed;
  parsed ← join_field "; " "languages" parsed;
  parsed ← join_field "; " "language_ids" parsed;
  parsed ← join_field "; " "identifiers" parsed;
  parsed ← join_field " | " "notes" parsed;
  parsed ← join_field "; " "note_types" parsed;
  join_availability so parsed.

(** Lines 101-336: [parsed] before its lists are joined. *)
Definition collect_fields (work : json) : res flat :=
  parsed ← initial_parsed work;
  parsed ← alternative_titles work parsed;
  parsed ← production_info work parsed;
  parsed ← contributors work parsed;
  parsed ← subjects work parsed;
  parsed ← genres work parsed;
  parsed ← languages work parsed;
  parsed ← identifiers work parsed;
  parsed ← notes work parsed;
  parsed ← thumbnail work parsed;
  parsed ← items work parsed;
  parsed ← count_of "holdings" "holdings_count" work parsed;
  parsed ← related "partOf" "partOf_title" "partOf_id" work parsed;
  parsed ← count_of "parts" "parts_count" work parsed;
  parsed ← related "precededBy" "precededBy_title" "precededBy_id" work parsed;
  parsed ← related "succeededBy" "succeededBy_title" "succeededBy_id" work parsed;
  count_of "images" "images_count" work parsed.

Definition extract_all_fields (so : set_iteration) (work : json) : res flat :=
  parsed ← collect_fields work;
  lists_to_strings so parsed.

(** ** The loaders *)

(** What a path names. *)
Inductive file : Type :=
  | Directory
  | GzipText (lines : list string)
  | NotGzip.

(** What a loader does to the file system, in order. *)
Inductive event : Type :=
  | PathExists (path : string)
  | OpenFile (path : string)
  | ReadLine (path : string).

Section loaders.

(** [json.loads(line)]: [None] when it raises [JSONDecodeError]. *)
Variable json_loads : string -> option json.

Variable so : set_iteration.

(** The loop of scripts/loading.py, 60-70, over the lines [f] has left,
    [i] being the index [enumerate] gives the next one. *)
Fixpoint parse_lines (n_samples : option Z) (i : Z) (f : list string)
    (works : list flat) : res (list flat) :=
  match f with
  | [] => Ok works
  | line :: f' =>
      if match n_samples with
         | Some n => (n <=? i)%Z
         | None => false
         end
      then Ok works
      else
        match json_loads line with
        | Some work =>
            parsed ← extract_all_fields so work;
            parse_lines n_samples (i + 1) f' (works ++ [parsed])
        | None => parse_lines n_samples (i + 1) f' works
        end
  end.

(** scripts/loading.py, 58-70: the records [load_wellcome_data] builds its
    data frame from, [f] being the lines of the downloaded file. *)
Definition load_wellcome_data (n_samples : option Z) (f : list string)
  : res (list flat) :=
  parse_lines n_samples 0 f [].

(** The loop of data/loading.py, 16-19. *)
Fixpoint read_lines (path : string) (f : list string) (data : list json)
  : list event * res (list json) :=
  match f with
  | [] => ([], Ok data)
  | line :: f' =>
      match json_loads line with
      | Some v =>
          let '(trace, r) := read_lines path f' (data ++ [v]) in
          (ReadLine path :: trace, r)
      | None => ([ReadLine path], Raise JSONDecodeError)
      end
  end.

(** data/loading.py, 6-22: the events of the call and the rows the data
    frame is built from. *)
Definition load_data (fs : gmap string file) (path : string)
  : list event * res (list json) :=
  match fs !! path with
  | None => ([PathExists path], Raise FileNotFoundError)
  | Some Directory => ([PathExists path; OpenFile path], Raise IsADirectoryError)
  | Some NotGzip => ([PathExists path; OpenFile path; ReadLine path], Raise OSError)
  | Some (GzipText f) =>
      let '(trace, r) := read_lines path f [] in
      (PathExists path :: OpenFile path :: trace, r)
  end.

End loaders.

(** A decoder for the examples: as [json.loads], it returns the empty dict
    on the line [{}] and raises on the line [{]. *)
Definition loads_braces (line : string) : option json :=
  if String.eqb line "{}" then Some (JObj []) else None.

(** * The vocabulary of the statements, and the examples *)

(** The keys of line 339-353. *)
Definition joined_keys : list string :=
  [ "production_places"; "production_agents"; "contributors"; "contributor_roles";
    "contributor_ids"; "subjects"; "subject_ids"; "genres"; "genre_ids"; "languages";
    "language_ids"; "identifiers"; "notes"; "note_types"; "availability_status" ].

(** The entry [k] of [x] when [x] is a dict that has one. *)
Definition field (k : string) (x : json) : option json :=
  match x with
  | JObj kv => dict_lookup k kv
  | _ => None
  end.

(** The items of [v] when [v] is a list. *)
Definition elements (v : option json) : list json :=
  match v with
  | Some (JArr l) => l
  | _ => []
  end.

(** [sep.join(ss) if ss else None]. *)
Definition joined (sep : string) (ss : list string) : json :=
  match ss with
  | [] => JNull
  | _ :: _ => JStr (String.concat sep ss)
  end.

(** The last of the values [l] assigned to a key, or what the key held
    before, [d], when there is none. *)
Definition last_or {A : Type} (l : list A) (d : option A) : option A :=
  match last l with
  | Some v => Some v
  | None => d
  end.

(** What one item adds to a list of labels: its label, when it has one. *)
Definition label_of (x : json) : list json := option_list (field "label" x).

(** What it adds to the list of ids that goes with the labels. *)
Definition id_of (x : json) : list json :=
  match field "label" x with
  | Some _ => option_list (field "id" x)
  | None => []
  end.

(** The entries of the literal that do not depend on [work]. *)
Definition initial_constants : list (string * json) :=
  [ ("alternativeTitles", JNull);
    ("production_date", JNull);
    ("production_date_from", JNull);
    ("production_date_to", JNull);
    ("production_places", JArr []);
    ("production_agents", JArr []);
    ("production_function", JNull);
    ("contributors", JArr []);
    ("contributor_roles", JArr []);
    ("contributor_ids", JArr []);
    ("subjects", JArr []);
    ("subject_ids", JArr []);
    ("genres", JArr []);
    ("genre_ids", JArr []);
    ("languages", JArr []);
    ("language_ids", JArr []);
    ("identifiers", JArr []);
    ("isbn", JNull);
    ("issn", JNull);
    ("sierra_system_number", JNull);
    ("wellcome_library_number", JNull);
    ("notes", JArr []);
    ("note_types", JArr []);
    ("thumbnail_url", JNull);
    ("has_digitized_items", JBool false);
    ("items_count", JNum 0);
    ("availability_status", JArr []);
    ("partOf_title", JNull);
    ("partOf_id", JNull);
    ("parts_count", JNum 0);
    ("precededBy_title", JNull);
    ("precededBy_id", JNull);
    ("succeededBy_title", JNull);
    ("succeededBy_id", JNull);
    ("holdings_count", JNum 0);
    ("images_count", JNum 0) ].

(** The lists of lines 339-352, each with its separator. *)
Definition joined_with : list (string * string) :=
  [ ("production_places", "; "); ("production_agents", "; ");
    ("contributors", "; "); ("contributor_roles", "; "); ("contributor_ids", "; ");
    ("subjects", "; "); ("subject_ids", "; "); ("genres", "; "); ("genre_ids", "; ");
    ("languages", "; "); ("language_ids", "; "); ("identifiers", "; ");
    ("notes", " | "); ("note_types", "; ") ].

(** The agent of a contributor, [contrib.get('agent', {})]. *)
Definition agent_of (contrib : json) : json := default (JObj []) (field "agent" contrib).

(** The role of a contributor: the label of the first role listed, or
    ['Unknown']. *)
Definition role_of (contrib : json) : json :=
  match field "roles" contrib with
  | Some (JArr (role :: _)) => default (JStr "Unknown") (field "label" role)
  | _ => JStr "Unknown"
  end.

(** What a contributor adds to each of the three lists. *)
Definition contributor_label (contrib : json) : list json := label_of (agent_of contrib).

(** Its agent's id, when the agent has a label and an id. *)
Definition contributor_id (contrib : json) : list json := id_of (agent_of contrib).

(** Its role, when the agent has a label. *)
Definition contributor_role (contrib : json) : list json :=
  match field "label" (agent_of contrib) with
  | Some _ => [role_of contrib]
  | None => []
  end.

(** [joins l sep v]: [v] is [l], a list of strings, joined with [sep], or
    [None] when [l] is empty. *)
Definition joins (l : list json) (sep : string) (v : option json) : Prop :=
  exists ss, all_str l = Ok ss /\ v = Some (joined sep ss).

(** The result of a computation, for the examples. *)
Definition result_of (x : res flat) : flat :=
  match x with
  | Ok p => p
  | Raise _ => ∅
  end.

(** The computation returned. *)
Definition is_ok {A : Type} (x : res A) : bool :=
  match x with
  | Ok _ => true
  | Raise _ => false
  end.

(** Three contributors: one with label, id and role, one with a label only,
    one without a label. *)
Definition contributors_example : json :=
  JObj [("contributors",
         JArr [ JObj [("agent", JObj [("label", JStr "Ada"); ("id", JStr "a1")]);
                      ("roles", JArr [JObj [("label", JStr "author")]])];
                JObj [("agent", JObj [("label", JStr "Bob")])];
                JObj [("agent", JObj [("id", JStr "c3")])] ])].

(** The three groups of lines 229-251: the key of [work], the key of the
    labels and the key of the ids. *)
Definition label_id_groups : list (string * string * string) :=
  [ ("subjects", "subjects", "subject_ids");
    ("genres", "genres", "genre_ids");
    ("languages", "languages", "language_ids") ].

(** The items of [l] that have a label have an id too. *)
Definition ids_present (l : list json) : Prop :=
  Forall (fun x => is_Some (field "label" x) -> is_Some (field "id" x)) l.

(** Two subjects, the first without an id. *)
Definition subjects_example : json :=
  JObj [("subjects",
         JArr [ JObj [("label", JStr "A")];
                JObj [("label", JStr "B"); ("id", JStr "b1")] ])].







(** [ident.get('identifierType', {}).get('id', '')] and
    [ident.get('value', '')]. *)
Definition ident_type (ident : json) : json :=
  default (JStr "") (field "id" (default (JObj []) (field "identifierType" ident))).

(** The value of an identifier. *)
Definition ident_value (ident : json) : json := default (JStr "") (field "value" ident).

(** An identifier counts when its type id and its value are both non-empty. *)
Definition usable (ident : json) : bool :=
  truthy (ident_type ident) && truthy (ident_value ident).

(** What it adds to the list [identifiers]. *)
Definition identifier_entry (ident : json) : list json :=
  if usable ident
  then [JStr (py_format (ident_type ident) +:+ ":" +:+ py_format (ident_value ident))]
  else [].

(** The scalar field a type id is routed to. *)
Definition route (id_type : json) : option string :=
  match id_type with
  | JStr s =>
      if String.eqb s "isbn" then Some "isbn"
      else if String.eqb s "issn" then Some "issn"
      else if String.eqb s "sierra-system-number" then Some "sierra_system_number"
      else if is_substring "wellcome" (lower s) then Some "wellcome_library_number"
      else None
  | _ => None
  end.

(** The four scalar fields of lines 263-270. *)
Definition routed_fields : list string :=
  [ "isbn"; "issn"; "sierra_system_number"; "wellcome_library_number" ].

(** What an identifier assigns to the scalar field [k]. *)
Definition routed (k : string) (ident : json) : list json :=
  if usable ident && bool_decide (route (ident_type ident) = Some k)
  then [ident_value ident]
  else [].

(** The two identifiers of the example. *)
Definition identifiers_example : json :=
  JArr [ JObj [("identifierType", JObj [("id", JStr "isbn")]); ("value", JStr "123")];
         JObj [("identifierType", JObj [("id", JStr "wellcome-number")]);
               ("value", JStr "W1")] ].

(** The identifier fields of a record whose list of identifiers is [l]. *)
Definition identifier_fields (l : list json) (r : flat) : Prop :=
  joins (flat_map identifier_entry l) "; " (r !! "identifiers") /\
  (forall k, k ∈ routed_fields ->
             r !! k = Some (default JNull (last (flat_map (routed k) l)))).

(** What an access condition adds to [availability_status]: the label of
    its status, when the label is truthy. *)
Definition status_of (condition : json) : list json :=
  match field "status" condition with
  | Some status =>
      let label := default JNull (field "label" status) in
      if truthy label then [label] else []
  | None => []
  end.

(** What the access conditions of a location add. *)
Definition location_statuses (loc : json) : list json :=
  flat_map status_of (elements (field "accessConditions" loc)).

(** What the locations of an item add. *)
Definition item_statuses (item : json) : list json :=
  flat_map location_statuses (elements (field "locations" item)).

(** The id of the type of a location is ['online']. *)
Definition is_online (loc : json) : bool :=
  py_eq_str (default JNull (field "id" (default (JObj []) (field "locationType" loc))))
    "online".

(** What a location, and an item, assign to [has_digitized_items]. *)
Definition online_mark (loc : json) : list json :=
  if is_online loc then [JBool true] else [].

(** What the locations of an item assign. *)
Definition item_marks (item : json) : list json :=
  flat_map online_mark (elements (field "locations" item)).

(** Some location of some item is online. *)
Definition has_online (items : list json) : bool :=
  existsb (fun item => existsb is_online (elements (field "locations" item))) items.

(** The list has an item. *)
Definition nonempty {A : Type} (l : list A) : bool :=
  match l with
  | [] => false
  | _ :: _ => true
  end.


(** The access conditions of the items of [l]. *)
Definition conditions_of (l : list json) : list json :=
  it ← l; loc ← elements (field "locations" it); elements (field "accessConditions" loc).

(** A record whose access conditions have an empty status label, or none. *)
Definition empty_label_example : json :=
  JObj [("items",
         JArr [JObj [("locations",
                      JArr [JObj [("accessConditions",
                                   JArr [ JObj [("status", JObj [("label", JStr "")])];
                                          JObj [("status", JObj [])] ])]])]])].

(** The keys of the dictionary literal, lines 101-170. *)
Definition fixed_keys : list string :=
  [ "id"; "title"; "alternativeTitles"; "workType"; "workType_id"; "description";
    "physicalDescription"; "lettering"; "edition";
    "production_date"; "production_date_from"; "production_date_to";
    "production_places"; "production_agents"; "production_function";
    "contributors"; "contributor_roles"; "contributor_ids";
    "subjects"; "subject_ids"; "genres"; "genre_ids"; "languages"; "language_ids";
    "identifiers"; "isbn"; "issn"; "sierra_system_number"; "wellcome_library_number";
    "notes"; "note_types";
    "thumbnail_url"; "has_digitized_items"; "items_count"; "availability_status";
    "partOf_title"; "partOf_id"; "parts_count"; "precededBy_title"; "precededBy_id";
    "succeededBy_title"; "succeededBy_id";
    "holdings_count"; "referenceNumber"; "images_count" ].

(** The fields copied from [work] as they are. *)
Definition copied_keys : list string :=
  [ "id"; "title"; "description"; "physicalDescription"; "lettering"; "edition";
    "referenceNumber" ].

(** A source field is absent, or holds the empty value [e]. *)
Definition absent_or (e : json) (src : string) (work : json) : Prop :=
  field src work = None \/ field src work = Some e.

(** For every key of [work] the flattener reads: the value that counts as
    empty, and the fields filled from it, each with its default. *)
Definition source_defaults : list (string * json * list (string * json)) :=
  [ ("id", JNull, [("id", JNull)]);
    ("title", JNull, [("title", JNull)]);
    ("description", JNull, [("description", JNull)]);
    ("physicalDescription", JNull, [("physicalDescription", JNull)]);
    ("lettering", JNull, [("lettering", JNull)]);
    ("edition", JNull, [("edition", JNull)]);
    ("referenceNumber", JNull, [("referenceNumber", JNull)]);
    ("workType", JObj [], [("workType", JNull); ("workType_id", JNull)]);
    ("alternativeTitles", JArr [], [("alternativeTitles", JNull)]);
    ("production", JArr [],
     [ ("production_date", JNull); ("production_date_from", JNull);
       ("production_date_to", JNull); ("production_places", JNull);
       ("production_agents", JNull); ("production_function", JNull) ]);
    ("contributors", JArr [],
     [("contributors", JNull); ("contributor_roles", JNull); ("contributor_ids", JNull)]);
    ("subjects", JArr [], [("subjects", JNull); ("subject_ids", JNull)]);
    ("genres", JArr [], [("genres", JNull); ("genre_ids", JNull)]);
    ("languages", JArr [], [("languages", JNull); ("language_ids", JNull)]);
    ("identifiers", JArr [],
     [ ("identifiers", JNull); ("isbn", JNull); ("issn", JNull);
       ("sierra_system_number", JNull); ("wellcome_library_number", JNull) ]);
    ("notes", JArr [], [("notes", JNull); ("note_types", JNull)]);
    ("thumbnail", JObj [], [("thumbnail_url", JNull)]);
    ("items", JArr [],
     [ ("items_count", JNum 0); ("has_digitized_items", JBool false);
       ("availability_status", JNull) ]);
    ("holdings", JArr [], [("holdings_count", JNum 0)]);
    ("partOf", JArr [], [("partOf_title", JNull); ("partOf_id", JNull)]);
    ("parts", JArr [], [("parts_count", JNum 0)]);
    ("precededBy", JArr [], [("precededBy_title", JNull); ("precededBy_id", JNull)]);
    ("succeededBy", JArr [], [("succeededBy_title", JNull); ("succeededBy_id", JNull)]);
    ("images", JArr [], [("images_count", JNum 0)]) ].

(** The lines the loop of [load_wellcome_data] reads from index [i] on:
    all of them, or those up to the index [n_samples]. *)
Definition lines_read (n_samples : option Z) (i : Z) (f : list string) : list string :=
  match n_samples with
  | Some n => take (Z.to_nat (n - i)) f
  | None => f
  end.

(** A file of two lines: the first does not parse, the second is [{}]. *)
Definition braces_stream : list string := ["{"; "{}"].

(** A file system with that one file. *)
Definition braces_files : gmap string file := {["works.json.gz" := GzipText braces_stream]}.

(** ** The routing rules and the status labels *)

(** [c] is the lower-case letter [d], or the same letter in upper case. *)
Definition either_case (d c : ascii) : Prop :=
  c = d \/ nat_of_ascii c + 32 = nat_of_ascii d.

(** [t] contains the lower-case word [word], the case of the letters
    apart. *)
Definition contains_ignoring_case (word t : string) : Prop :=
  exists pre w post,
    t = pre +:+ w +:+ post /\
    Forall2 either_case (list_ascii_of_string word) (list_ascii_of_string w).

(** The rules of the routing: the type id [t] goes to the scalar field
    [k]. *)
Definition routing_rule (t k : string) : Prop :=
  (t = "isbn" /\ k = "isbn") \/
  (t = "issn" /\ k = "issn") \/
  (t = "sierra-system-number" /\ k = "sierra_system_number") \/
  (contains_ignoring_case "wellcome" t /\ k = "wellcome_library_number").

(** Four identifiers: an ISBN, a type id with [wellcome] inside it and in
    mixed case, a DOI, and an ISSN without a value. *)
Definition identifiers_mixed_example : json :=
  JArr [ JObj [("identifierType", JObj [("id", JStr "isbn")]); ("value", JStr "123")];
         JObj [("identifierType", JObj [("id", JStr "The-WellCome-Library")]);
               ("value", JStr "W1")];
         JObj [("identifierType", JObj [("id", JStr "doi")]); ("value", JStr "10.1")];
         JObj [("identifierType", JObj [("id", JStr "issn")]); ("value", JStr "")] ].

(** One identifier, a DOI. *)
Definition doi_example : json :=
  JObj [("identifiers",
         JArr [JObj [("identifierType", JObj [("id", JStr "doi")]); ("value", JStr "10.1")]])].

(** [s] is the label of the status of an access condition of a location of
    an item of [l]. *)
Definition status_label (l : list json) (s : string) : Prop :=
  exists it loc condition status,
    it ∈ l /\ loc ∈ elements (field "locations" it) /\
    condition ∈ elements (field "accessConditions" loc) /\
    field "status" condition = Some status /\ field "label" status = Some (JStr s).

(** A record with four access conditions: an empty status label, the label
    [Open], no label, and a null label. *)
Definition mixed_labels_example : json :=
  JObj [("items",
         JArr [JObj [("locations",
                      JArr [JObj [("accessConditions",
                                   JArr [ JObj [("status", JObj [("label", JStr "")])];
                                          JObj [("status", JObj [("label", JStr "Open")])];
                                          JObj [("status", JObj [])];
                                          JObj [("status", JObj [("label", JNull)])] ])]])]])].

(** ** Notes, counts, relations and the keys read *)

(** The type of a note, [note.get('noteType', {}).get('label', 'general')]. *)
Definition note_type_of (note : json) : json :=
  default (JStr "general") (field "label" (default (JObj []) (field "noteType" note))).

(** What a note adds to [note_types]. *)
Definition note_type_entry (note : json) : list json :=
  match note with
  | JObj _ => [note_type_of note]
  | _ => []
  end.

(** The items a loop over [v] runs through. *)
Definition iterated (v : json) : list json :=
  match py_iter v with
  | Ok l => l
  | Raise _ => []
  end.

(** What a note adds to [notes]: the strings among its contents. *)
Definition note_strings (note : json) : list json :=
  match note with
  | JObj _ => filter (fun x => is_str x = true) (iterated (default (JArr []) (field "contents" note)))
  | _ => []
  end.

(** The url of the thumbnail, when the record has a non-empty thumbnail. *)
Definition thumbnail_url_of (work : json) : json :=
  let thumbnail := default (JObj []) (field "thumbnail" work) in
  if truthy thumbnail then default JNull (field "url" thumbnail) else JNull.

(** The counts of lines 309-310, 319-320 and 335-336: the key of [work] and
    the field. *)
Definition count_fields : list (string * string) :=
  [ ("holdings", "holdings_count"); ("parts", "parts_count"); ("images", "images_count") ].

(** The relations of lines 313-332: the key of [work], the field of the
    title and the field of the id. *)
Definition related_fields : list (string * string * string) :=
  [ ("partOf", "partOf_title", "partOf_id");
    ("precededBy", "precededBy_title", "precededBy_id");
    ("succeededBy", "succeededBy_title", "succeededBy_id") ].

(** The keys of [work] whose value is iterated, measured or read as a dict
    without a test. *)
Definition unguarded_sources : list string :=
  [ "workType"; "contributors"; "subjects"; "genres"; "languages"; "identifiers";
    "notes"; "items"; "holdings"; "parts"; "images" ].

(** A null, a boolean or a number. *)
Definition scalar (v : json) : bool :=
  match v with
  | JNull | JBool _ | JNum _ => true
  | _ => false
  end.


(** The keys of [work] the flattener reads. *)
Definition source_keys : list string := map (fun e => e.1.1) source_defaults.

(** ** Formatting a row: [format_row] (scripts/formating.py) *)

Section formating.

(** The values of a row of the data frame, with the test [if pd.isna(value):]
    of line 10 and [f"{value}"] on them, and [col.upper()] on the labels.
    The test gives [Some true] on a missing value, [Some false] on a value
    that is not missing, and [None] on a value for which it raises
    [ValueError]: for a list or an array [pd.isna] returns an array, and the
    truth value of an array of several items is ambiguous. *)
Variable cell : Type.
Variable isna : cell -> option bool.
Variable str : cell -> string.
Variable upper : string -> string.

(** Lines 7 and 11-12: [f"[{col_upper}: {{{value}}}]"], the missing value
    being replaced by the empty string. *)
Definition format_cell (col : string) (value : cell) (missing : bool) : string :=
  "[" +:+ upper col +:+ ": {" +:+ (if missing then "" else str value) +:+ "}]".

(** The number of entries of the row with the label [col]. *)
Definition labelled_entries (col : string) (row : list (string * cell)) : nat :=
  length (filter (fun entry => entry.1 = col) row).

(** The loop of lines 5-12 over the entries [index] of the row that are
    left, [None] standing for [ValueError]. The row is the list of its
    entries, label and value, in the order of its index; [row[col]] is a
    value when one entry has the label [col], and a Series, on which the test
    of line 10 raises [ValueError], when several have. *)
Fixpoint format_columns (row index : list (string * cell)) (exclude : list string)
    (parts : list string) : option (list string) :=
  match index with
  | [] => Some parts
  | (col, value) :: index' =>
      if bool_decide (col ∈ exclude) then format_columns row index' exclude parts
      else if bool_decide (labelled_entries col row = 1)
           then match isna value with
                | Some missing =>
                    format_columns row index' exclude
                      (parts ++ [format_cell col value missing])
                | None => None
                end
           else None
  end.

(** scripts/formating.py, 3-13. *)
Definition format_row (row : list (string * cell)) (exclude : list string)
  : option string :=
  parts ← format_columns row row exclude [];
  Some (String.concat " " parts).

(** The entries of a row whose label is not excluded. *)
Definition kept (exclude : list string) (row : list (string * cell)) : list (string * cell) :=
  filter (fun entry => entry.1 ∉ exclude) row.

(** The part of an entry: its label in upper case and its value, or nothing
    for a missing value, between braces. *)
Definition part_of (entry : string * cell) : string :=
  format_cell entry.1 entry.2 (default false (isna entry.2)).

End formating.

Arguments format_cell {cell} str upper col value missing.
Arguments labelled_entries {cell} col row.
Arguments format_columns {cell} isna str upper row index exclude parts.
Arguments format_row {cell} isna str upper row exclude.
Arguments kept {cell} exclude row.
Arguments part_of {cell} isna str upper entry.

(** ** Examples *)

(** Two notes: one with a type and three contents, of which one is not a
    string, and one without a type. *)
Definition notes_example : json :=
  JObj [("notes",
         JArr [ JObj [("noteType", JObj [("label", JStr "Summary")]);
                      ("contents", JArr [JStr "a"; JNum 1; JStr "b"])];
                JObj [("contents", JArr [JStr "c"])] ])].

(** A record with a title, a work type, a thumbnail, two alternative
    titles, two holdings, two parents and an empty production list. *)
Definition work_example : json :=
  JObj [ ("id", JStr "w1"); ("title", JStr "Atlas");
         ("workType", JObj [("id", JStr "a"); ("label", JStr "Books")]);
         ("thumbnail", JObj [("url", JStr "http://t")]);
         ("alternativeTitles", JArr [JStr "One"; JStr "Two"]);
         ("holdings", JArr [JObj []; JObj []]);
         ("partOf", JArr [ JObj [("title", JStr "Series"); ("id", JStr "p1")];
                           JObj [("title", JStr "Other")] ]);
         ("production", JArr []) ].

(** A decoder for the examples that reads a list as well: as [json.loads],
    it returns the empty dict on the line [{}] and the empty list on the line
    [[]], and raises on the line [{]. *)
Definition loads_example (line : string) : option json :=
  if String.eqb line "{}" then Some (JObj [])
  else if String.eqb line "[]" then Some (JArr [])
  else None.

(** The flat record of the empty dict. *)
Definition empty_record : flat := result_of (extract_all_fields first_occurrence (JObj [])).

(** A file system with one file, of two lines that parse. *)
Definition parsed_files : gmap string file :=
  {["works.json.gz" := GzipText ["{}"; "[]"]]}.

(** * Properties *)

Set Warnings "-clear-no-such-hyp".

(** ** Running a computation that did not raise *)

Lemma bind_Ok {A B : Type} (m : res A) (f : A -> res B) (b : B) :
  m ≫= f = Ok b -> exists a, m = Ok a /\ f a = Ok b.
Proof. destruct m as [a|e]; simpl; [eauto | discriminate]. Qed.

(** [exec H] takes apart [H : m = Ok p], [m] a sequence of statements: it
    names the result of every step and follows the branch taken. *)
Ltac exec H :=
  lazymatch type of H with
  | Ok _ = Ok _ => apply (inj Ok) in H; try subst
  | Raise _ = Ok _ => discriminate H
  | mret _ = Ok _ => unfold mret, res_ret in H; exec H
  | _ ≫= _ = Ok _ =>
      let x := fresh "x" in
      let E := fresh "E" in
      apply bind_Ok in H as (x & E & H); exec E; exec H
  | (if ?b then _ else _) = Ok _ =>
      let E := fresh "E" in
      destruct b eqn:E; exec H
  | (let x := _ in _) = Ok _ => cbv zeta in H; exec H
  | _ => idtac
  end.

#[global] Instance Ok_inj {A : Type} : Inj (=) (=) (@Ok A).
Proof. intros x y H. by injection H. Qed.

(** ** The keys a statement writes *)

(** [Frame W m]: when [m] does not raise, it leaves the keys outside [W] as
    they were and removes no key. *)
Class Frame (W : list string) (m : flat -> res flat) : Prop :=
  frame : forall p p', m p = Ok p' ->
    (forall k, k ∉ W -> p' !! k = p !! k) /\ dom p ⊆ dom p'.

#[global] Hint Mode Frame - ! : typeclass_instances.

(** [notin] proves that a key differs from another, or is none of the keys
    of a footprint, from the literals or from a hypothesis of that kind. *)
Ltac elem_here :=
  solve [repeat first [apply list_elem_of_here | apply list_elem_of_further]].

Ltac notin :=
  lazymatch goal with
  | |- _ ∉ _ =>
      let Hin := fresh "Hin" in
      intros Hin;
      repeat
        (apply elem_of_cons in Hin as [Hin|Hin];
         [ first
             [ discriminate Hin
             | congruence
             | subst; match goal with Hk : _ ∉ _ |- _ => apply Hk; elem_here end ]
         | ]);
      by apply elem_of_nil in Hin
  | |- _ ≠ _ =>
      first
        [ discriminate
        | congruence
        | let E := fresh "E" in
          intros E; subst;
          match goal with Hk : _ ∉ _ |- _ => apply Hk; elem_here end ]
  end.

#[global] Instance frame_list_append k x : Frame [k] (list_append k x).
Proof.
  intros p p' H. unfold list_append in H. exec H.
  destruct x0; try discriminate. exec H. split.
  - intros k' Hk'. apply lookup_insert_ne. notin.
  - apply dom_insert_subseteq.
Qed.

#[global] Instance frame_for_each W body l :
  (forall x, Frame W (body x)) -> Frame W (for_each body l).
Proof.
  intros Hbody. induction l as [|x l IH]; intros p p' H; simpl in H; exec H.
  - done.
  - apply Hbody in E as [E1 E2]. apply IH in H as [H1 H2]. split.
    + intros k Hk. rewrite H1, E1; done.
    + by etrans.
Qed.

#[global] Instance frame_py_for W body v :
  (forall x, Frame W (body x)) -> Frame W (py_for v body).
Proof.
  intros Hbody p p' H. unfold py_for in H. exec H.
  by apply (frame_for_each W body x Hbody).
Qed.

(** [framed] replaces every statement among the hypotheses by what its
    frame says; [chain] then follows a key back through the states. *)
Ltac framed :=
  repeat
    match goal with
    | H : _ = Ok _ |- _ => apply frame in H as [? ?]
    end.

Ltac chain :=
  repeat
    first
      [ rewrite lookup_insert_ne by notin
      | match goal with
        | H : forall k, k ∉ _ -> ?q !! k = _ |- context [?q !! _] =>
            rewrite H by notin
        end ];
  try done.

Ltac dom_chain :=
  repeat
    first
      [ done
      | etrans; [| apply dom_insert_subseteq]
      | match goal with
        | H : dom _ ⊆ dom ?q |- _ ⊆ dom ?q => etrans; [| exact H]
        end ].

Ltac solve_frame :=
  framed; split; [intros ? ?; chain | dom_chain].

#[global] Instance frame_append_label k x : Frame [k] (append_label k x).
Proof. intros p p' H. unfold append_label in H. exec H; solve_frame. Qed.

#[global] Instance frame_alternative_titles work :
  Frame ["alternativeTitles"] (alternative_titles work).
Proof. intros p p' H. unfold alternative_titles in H. exec H; solve_frame. Qed.

#[global] Instance frame_production_function prod :
  Frame ["production_function"] (production_function prod).
Proof. intros p p' H. unfold production_function in H. exec H; solve_frame. Qed.

#[global] Instance frame_production_dates prod :
  Frame ["production_date"; "production_date_from"; "production_date_to"]
    (production_dates prod).
Proof. intros p p' H. unfold production_dates in H. exec H; solve_frame. Qed.

#[global] Instance frame_production_info work :
  Frame ["production_date"; "production_date_from"; "production_date_to";
         "production_places"; "production_agents"; "production_function"]
    (production_info work).
Proof. intros p p' H. unfold production_info in H. exec H; solve_frame. Qed.

#[global] Instance frame_contributor contrib :
  Frame ["contributors"; "contributor_roles"; "contributor_ids"] (contributor contrib).
Proof. intros p p' H. unfold contributor in H. exec H; solve_frame. Qed.

#[global] Instance frame_contributors work :
  Frame ["contributors"; "contributor_roles"; "contributor_ids"] (contributors work).
Proof. intros p p' H. unfold contributors in H. exec H; solve_frame. Qed.

#[global] Instance frame_labelled labels ids x : Frame [labels; ids] (labelled labels ids x).
Proof. intros p p' H. unfold labelled in H. exec H; solve_frame. Qed.

#[global] Instance frame_subjects work : Frame ["subjects"; "subject_ids"] (subjects work).
Proof. intros p p' H. unfold subjects in H. exec H; solve_frame. Qed.

#[global] Instance frame_genres work : Frame ["genres"; "genre_ids"] (genres work).
Proof. intros p p' H. unfold genres in H. exec H; solve_frame. Qed.

#[global] Instance frame_languages work : Frame ["languages"; "language_ids"] (languages work).
Proof. intros p p' H. unfold languages in H. exec H; solve_frame. Qed.

#[global] Instance frame_identifier ident :
  Frame ["identifiers"; "isbn"; "issn"; "sierra_system_number"; "wellcome_library_number"]
    (identifier ident).
Proof. intros p p' H. unfold identifier in H. exec H; solve_frame. Qed.

#[global] Instance frame_identifiers work :
  Frame ["identifiers"; "isbn"; "issn"; "sierra_system_number"; "wellcome_library_number"]
    (identifiers work).
Proof. intros p p' H. unfold identifiers in H. exec H; solve_frame. Qed.

#[global] Instance frame_note_content content : Frame ["notes"] (note_content content).
Proof. intros p p' H. unfold note_content in H. exec H; solve_frame. Qed.

#[global] Instance frame_note n : Frame ["notes"; "note_types"] (note n).
Proof. intros p p' H. unfold note in H. exec H; solve_frame. Qed.

#[global] Instance frame_notes work : Frame ["notes"; "note_types"] (notes work).
Proof. intros p p' H. unfold notes in H. exec H; solve_frame. Qed.

#[global] Instance frame_thumbnail work : Frame ["thumbnail_url"] (thumbnail work).
Proof. intros p p' H. unfold thumbnail in H. exec H; solve_frame. Qed.

#[global] Instance frame_access_condition condition :
  Frame ["availability_status"] (access_condition condition).
Proof. intros p p' H. unfold access_condition in H. exec H; solve_frame. Qed.

#[global] Instance frame_location loc :
  Frame ["has_digitized_items"; "availability_status"] (location loc).
Proof.
  intros p p' H. unfold location in H. exec H.
  destruct (py_eq_str x0 "online"); solve_frame.
Qed.

#[global] Instance frame_item i :
  Frame ["has_digitized_items"; "availability_status"] (item i).
Proof. intros p p' H. unfold item in H. exec H; solve_frame. Qed.

#[global] Instance frame_items work :
  Frame ["has_digitized_items"; "items_count"; "availability_status"] (items work).
Proof. intros p p' H. unfold items in H. exec H; solve_frame. Qed.

#[global] Instance frame_count_of src k work : Frame [k] (count_of src k work).
Proof. intros p p' H. unfold count_of in H. exec H; solve_frame. Qed.

#[global] Instance frame_related src title id work :
  Frame [title; id] (related src title id work).
Proof. intros p p' H. unfold related in H. exec H; solve_frame. Qed.

#[global] Instance frame_join_field sep k : Frame [k] (join_field sep k).
Proof. intros p p' H. unfold join_field in H. exec H; solve_frame. Qed.

#[global] Instance frame_join_availability so :
  Frame ["availability_status"] (join_availability so).
Proof. intros p p' H. unfold join_availability in H. exec H; solve_frame. Qed.

#[global] Instance frame_lists_to_strings so : Frame joined_keys (lists_to_strings so).
Proof.
  intros p p' H. unfold lists_to_strings in H. exec H. unfold joined_keys. solve_frame.
Qed.

(** ** What the loops collect *)

Lemma py_in_getitem k x v :
  py_in k x = Ok true -> py_getitem x k = Ok v -> field k x = Some v.
Proof.
  destruct x; simpl; try discriminate. destruct (dict_lookup k kv); congruence.
Qed.

Lemma py_in_false k x : py_in k x = Ok false -> field k x = None.
Proof.
  destruct x; simpl; try done. destruct (dict_lookup k kv); congruence.
Qed.

Lemma py_get_field x k d v : py_get x k d = Ok v -> v = default d (field k x).
Proof. destruct x; simpl; congruence. Qed.

Lemma py_get_JObj x k d v : py_get x k d = Ok v -> exists kv, x = JObj kv.
Proof. destruct x; simpl; try discriminate. eauto. Qed.

Lemma list_append_lookup k x p p' l :
  list_append k x p = Ok p' -> p !! k = Some (JArr l) ->
  p' !! k = Some (JArr (l ++ [x])).
Proof.
  intros H Hk. unfold list_append, dict_getitem in H. rewrite Hk in H. simpl in H.
  exec H. apply lookup_insert_eq.
Qed.

(** A loop whose body appends the values [get x] to [parsed[k]] appends them
    all, in the order of the items. *)
Lemma for_each_appends (k : string) (get : json -> list json) body :
  (forall x p p' l, body x p = Ok p' -> p !! k = Some (JArr l) ->
                    p' !! k = Some (JArr (l ++ get x))) ->
  forall xs p p' l, for_each body xs p = Ok p' -> p !! k = Some (JArr l) ->
                    p' !! k = Some (JArr (l ++ flat_map get xs)).
Proof.
  intros Hbody xs. induction xs as [|x xs IH]; intros p p' l H Hk; simpl in H; exec H.
  - by rewrite app_nil_r.
  - simpl. rewrite app_assoc. eapply IH; [done|]. by eapply Hbody.
Qed.

Lemma flat_map_nil {A B : Type} (f : A -> list B) (l : list A) :
  (forall x, x ∈ l -> f x = []) -> flat_map f l = [].
Proof.
  induction l as [|x l IH]; intros H; simpl; [done|].
  rewrite H, IH; [done| |]; intros; try apply H; by constructor.
Qed.

(** The same for a loop over [v]: a string or a dict is iterated too, but
    its items are strings, to which [get] has nothing to add. *)
Lemma py_for_appends (k : string) (get : json -> list json) body :
  (forall x p p' l, body x p = Ok p' -> p !! k = Some (JArr l) ->
                    p' !! k = Some (JArr (l ++ get x))) ->
  (forall s, get (JStr s) = []) ->
  forall v p p' l, py_for v body p = Ok p' -> p !! k = Some (JArr l) ->
                   p' !! k = Some (JArr (l ++ flat_map get (elements (Some v)))).
Proof.
  intros Hbody Hstr v p p' l H Hk. unfold py_for in H. exec H.
  pose proof (for_each_appends k get body Hbody _ _ _ _ H Hk) as ->.
  do 3 f_equal. destruct v; simpl in E; exec E; simpl; [|done|].
  - apply flat_map_nil. intros x [c [-> _]]%list_elem_of_fmap. apply Hstr.
  - apply flat_map_nil. intros x [c [-> _]]%list_elem_of_fmap. apply Hstr.
Qed.

Lemma last_or_cons {A : Type} (x : A) (l : list A) (d : option A) :
  last_or (x :: l) d = last_or l (Some x).
Proof.
  unfold last_or. destruct l as [|y l]; [done|]. rewrite last_cons_cons.
  destruct (last (y :: l)) eqn:E; [done|]. by apply last_None in E.
Qed.

Lemma last_or_app {A : Type} (l1 l2 : list A) (d : option A) :
  last_or (l1 ++ l2) d = last_or l2 (last_or l1 d).
Proof.
  revert d. induction l1 as [|x l1 IH]; intros d; [done|].
  simpl. by rewrite !last_or_cons, IH.
Qed.

(** A loop whose body either assigns a value of [set x] to [parsed[k]] or
    leaves the key alone: the last assignment stands. *)
Lemma for_each_assigns (k : string) (set : json -> list json) body :
  (forall x p p', body x p = Ok p' -> p' !! k = last_or (set x) (p !! k)) ->
  forall xs p p', for_each body xs p = Ok p' ->
                  p' !! k = last_or (flat_map set xs) (p !! k).
Proof.
  intros Hbody xs. induction xs as [|x xs IH]; intros p p' H; simpl in H; exec H.
  - done.
  - simpl. rewrite last_or_app. rewrite (IH _ _ H). by rewrite (Hbody _ _ _ E).
Qed.

Lemma py_for_assigns (k : string) (set : json -> list json) body :
  (forall x p p', body x p = Ok p' -> p' !! k = last_or (set x) (p !! k)) ->
  (forall s, set (JStr s) = []) ->
  forall v p p', py_for v body p = Ok p' ->
                 p' !! k = last_or (flat_map set (elements (Some v))) (p !! k).
Proof.
  intros Hbody Hstr v p p' H. unfold py_for in H. exec H.
  rewrite (for_each_assigns k set body Hbody _ _ _ H).
  f_equal. destruct v; simpl in E; exec E; simpl; [|done|].
  - apply flat_map_nil. intros x [c [-> _]]%list_elem_of_fmap. apply Hstr.
  - apply flat_map_nil. intros x [c [-> _]]%list_elem_of_fmap. apply Hstr.
Qed.

Lemma elements_default (k : string) (x : json) :
  elements (Some (default (JArr []) (field k x))) = elements (field k x).
Proof. by destruct (field k x). Qed.


Lemma labelled_labels labels ids x p p' l :
  labels <> ids ->
  labelled labels ids x p = Ok p' -> p !! labels = Some (JArr l) ->
  p' !! labels = Some (JArr (l ++ label_of x)).
Proof.
  intros Hne H Hl. unfold labelled in H. exec H; unfold label_of.
  - rewrite (py_in_getitem _ _ _ E E1).
    apply frame in H as [H _]. rewrite H by notin. by eapply list_append_lookup.
  - rewrite (py_in_getitem _ _ _ E E1). by eapply list_append_lookup.
  - rewrite (py_in_false _ _ E). by rewrite app_nil_r.
Qed.

Lemma labelled_ids labels ids x p p' l :
  labels <> ids ->
  labelled labels ids x p = Ok p' -> p !! ids = Some (JArr l) ->
  p' !! ids = Some (JArr (l ++ id_of x)).
Proof.
  intros Hne H Hl. unfold labelled in H. exec H; unfold id_of.
  - rewrite (py_in_getitem _ _ _ E E1), (py_in_getitem _ _ _ E3 E5).
    eapply list_append_lookup; [done|].
    apply frame in E2 as [E2 _]. by rewrite E2 by notin.
  - rewrite (py_in_getitem _ _ _ E E1), (py_in_false _ _ E3).
    apply frame in E2 as [E2 _]. rewrite E2 by notin. by rewrite app_nil_r.
  - rewrite (py_in_false _ _ E). by rewrite app_nil_r.
Qed.

(** ** The dictionary literal *)

Lemma initial_parsed_constant work p k v :
  initial_parsed work = Ok p -> (k, v) ∈ initial_constants -> p !! k = Some v.
Proof.
  intros H Hin. unfold initial_parsed in H. exec H. unfold initial_constants in Hin.
  repeat (apply elem_of_cons in Hin as [Hin|Hin];
          [injection Hin as -> ->; reflexivity|]).
  by apply elem_of_nil in Hin.
Qed.

(** [initial k v] closes a goal [p !! k = Some v] on the literal. *)
Ltac initial :=
  match goal with
  | H : initial_parsed _ = Ok ?p |- ?p !! _ = Some _ =>
      apply (initial_parsed_constant _ _ _ _ H); unfold initial_constants; elem_here
  end.

(** ** Joining the lists *)

Lemma all_str_cons x l ss :
  all_str (x :: l) = Ok ss -> exists s ss', x = JStr s /\ ss = s :: ss' /\ all_str l = Ok ss'.
Proof. destruct x; simpl; intros H; exec H. eauto. Qed.

Lemma py_join_JArr sep l s :
  py_join sep (JArr l) = Ok s -> exists ss, all_str l = Ok ss /\ s = String.concat sep ss.
Proof.
  intros H. unfold py_join in H.
  apply bind_Ok in H as (l' & Hl & H). apply bind_Ok in H as (ss & Hss & H).
  injection Hl as <-. injection H as <-. eauto.
Qed.

Lemma py_join_set_JArr so sep l s :
  py_join_set so sep (JArr l) = Ok s ->
  exists ss, all_str l = Ok ss /\ s = String.concat sep (set_list so ss).
Proof.
  intros H. unfold py_join_set in H.
  apply bind_Ok in H as (l' & Hl & H). apply bind_Ok in H as (ss & Hss & H).
  injection Hl as <-. injection H as <-. eauto.
Qed.

Lemma join_field_lookup sep k p p' l :
  join_field sep k p = Ok p' -> p !! k = Some (JArr l) ->
  exists ss, all_str l = Ok ss /\ p' !! k = Some (joined sep ss).
Proof.
  intros H Hk. unfold join_field, dict_getitem in H. rewrite Hk in H. simpl in H.
  destruct l as [|x l]; simpl in H; exec H.
  - exists []. split; [done|]. apply lookup_insert_eq.
  - apply py_join_JArr in E as (ss & Hss & ->).
    destruct (all_str_cons _ _ _ Hss) as (s & ss' & -> & -> & _).
    eexists. split; [done|]. apply lookup_insert_eq.
Qed.

Lemma join_availability_lookup so p p' l :
  join_availability so p = Ok p' -> p !! "availability_status" = Some (JArr l) ->
  exists ss, all_str l = Ok ss /\
    p' !! "availability_status" = Some (joined "; " (set_list so ss)).
Proof.
  intros H Hk. unfold join_availability, dict_getitem in H. rewrite Hk in H. simpl in H.
  destruct l as [|x l]; simpl in H; exec H.
  - exists []. split; [done|]. rewrite lookup_insert_eq.
    destruct (set_list so []) as [|s ss] eqn:Hs; [done|].
    assert (s ∈ @nil string) as Hin by (apply (set_list_elem so); rewrite Hs; constructor).
    by apply elem_of_nil in Hin.
  - apply py_join_set_JArr in E as (ss & Hss & ->).
    destruct (all_str_cons _ _ _ Hss) as (s & ss' & -> & -> & _).
    eexists. split; [done|]. rewrite lookup_insert_eq.
    destruct (set_list so (s :: ss')) as [|s' ss] eqn:Hs; [|done].
    assert (s ∈ @nil string) as Hin by (rewrite <- Hs; apply (set_list_elem so); constructor).
    by apply elem_of_nil in Hin.
Qed.

Lemma lists_to_strings_lookup so p r k sep l :
  lists_to_strings so p = Ok r -> (k, sep) ∈ joined_with -> p !! k = Some (JArr l) ->
  exists ss, all_str l = Ok ss /\ r !! k = Some (joined sep ss).
Proof.
  intros H Hin Hk. unfold lists_to_strings in H. exec H. unfold joined_with in Hin.
  repeat
    (apply elem_of_cons in Hin as [Hin|Hin];
     [ injection Hin as -> ->;
       match goal with
       | Hj : join_field ?s ?k' ?pa = Ok _
         |- exists ss, _ /\ _ !! ?k' = Some (joined ?s ss) =>
           let Hs := fresh "Hs" in
           assert (pa !! k' = Some (JArr l)) as Hs by (framed; chain);
           destruct (join_field_lookup _ _ _ _ _ Hj Hs) as (ss & Hss & Hr);
           exists ss; split; [exact Hss|]; rewrite <- Hr; clear Hj; framed; chain
       end
     | ]).
  by apply elem_of_nil in Hin.
Qed.

Lemma lists_to_strings_availability so p r l :
  lists_to_strings so p = Ok r -> p !! "availability_status" = Some (JArr l) ->
  exists ss, all_str l = Ok ss /\
    r !! "availability_status" = Some (joined "; " (set_list so ss)).
Proof.
  intros H Hk. unfold lists_to_strings in H. exec H.
  eapply join_availability_lookup; [done|]. framed. chain.
Qed.

Lemma lists_to_strings_other so p r k :
  lists_to_strings so p = Ok r -> k ∉ joined_keys -> r !! k = p !! k.
Proof. intros H Hk. by apply frame in H as [-> _]. Qed.

(** ** The blocks of [collect_fields] *)

(** A block [for x in work.get(src, []): body]. *)
Lemma source_appends src k get body work p p' l :
  (forall x p p' l, body x p = Ok p' -> p !! k = Some (JArr l) ->
                    p' !! k = Some (JArr (l ++ get x))) ->
  (forall s, get (JStr s) = []) ->
  (v ← py_get work src (JArr []); py_for v body p) = Ok p' ->
  p !! k = Some (JArr l) ->
  p' !! k = Some (JArr (l ++ flat_map get (elements (field src work)))).
Proof.
  intros Hbody Hstr H Hk. apply bind_Ok in H as (v & Hv & H).
  apply py_get_field in Hv as ->. rewrite <- elements_default.
  by eapply (py_for_appends k get body).
Qed.

Lemma source_assigns src k set body work p p' :
  (forall x p p', body x p = Ok p' -> p' !! k = last_or (set x) (p !! k)) ->
  (forall s, set (JStr s) = []) ->
  (v ← py_get work src (JArr []); py_for v body p) = Ok p' ->
  p' !! k = last_or (flat_map set (elements (field src work))) (p !! k).
Proof.
  intros Hbody Hstr H. apply bind_Ok in H as (v & Hv & H).
  apply py_get_field in Hv as ->. rewrite <- elements_default.
  by eapply (py_for_assigns k set body).
Qed.

(** [at_block H] proves [p !! k = Some (JArr (flat_map ..))] for the state
    [p] after some block, [H] being what the block does to the key [k] from
    the empty list the literal holds. *)
Ltac at_block H :=
  chain; first [ apply (H []) | apply H | rewrite H ]; chain; try initial.

Lemma labelled_source_labels src labels ids work p p' l :
  labels <> ids ->
  (v ← py_get work src (JArr []); py_for v (labelled labels ids) p) = Ok p' ->
  p !! labels = Some (JArr l) ->
  p' !! labels = Some (JArr (l ++ flat_map label_of (elements (field src work)))).
Proof.
  intros Hne. apply source_appends; [|done].
  intros x q q' l'. by apply labelled_labels.
Qed.

Lemma labelled_source_ids src labels ids work p p' l :
  labels <> ids ->
  (v ← py_get work src (JArr []); py_for v (labelled labels ids) p) = Ok p' ->
  p !! ids = Some (JArr l) ->
  p' !! ids = Some (JArr (l ++ flat_map id_of (elements (field src work)))).
Proof.
  intros Hne. apply source_appends; [|done].
  intros x q q' l'. by apply labelled_ids.
Qed.

Lemma collect_subjects work p :
  collect_fields work = Ok p ->
  p !! "subjects" = Some (JArr (flat_map label_of (elements (field "subjects" work)))) /\
  p !! "subject_ids" = Some (JArr (flat_map id_of (elements (field "subjects" work)))).
Proof.
  intros H. unfold collect_fields in H. exec H.
  match goal with
  | Hb : subjects _ _ = Ok _ |- _ =>
      pose proof (fun l => labelled_source_labels "subjects" "subjects" "subject_ids"
                             _ _ _ l ltac:(done) Hb) as Hl;
      pose proof (fun l => labelled_source_ids "subjects" "subjects" "subject_ids"
                             _ _ _ l ltac:(done) Hb) as Hi
  end.
  framed. split; [at_block Hl | at_block Hi].
Qed.

Lemma collect_genres work p :
  collect_fields work = Ok p ->
  p !! "genres" = Some (JArr (flat_map label_of (elements (field "genres" work)))) /\
  p !! "genre_ids" = Some (JArr (flat_map id_of (elements (field "genres" work)))).
Proof.
  intros H. unfold collect_fields in H. exec H.
  match goal with
  | Hb : genres _ _ = Ok _ |- _ =>
      pose proof (fun l => labelled_source_labels "genres" "genres" "genre_ids"
                             _ _ _ l ltac:(done) Hb) as Hl;
      pose proof (fun l => labelled_source_ids "genres" "genres" "genre_ids"
                             _ _ _ l ltac:(done) Hb) as Hi
  end.
  framed. split; [at_block Hl | at_block Hi].
Qed.

Lemma collect_languages work p :
  collect_fields work = Ok p ->
  p !! "languages" = Some (JArr (flat_map label_of (elements (field "languages" work)))) /\
  p !! "language_ids" = Some (JArr (flat_map id_of (elements (field "languages" work)))).
Proof.
  intros H. unfold collect_fields in H. exec H.
  match goal with
  | Hb : languages _ _ = Ok _ |- _ =>
      pose proof (fun l => labelled_source_labels "languages" "languages" "language_ids"
                             _ _ _ l ltac:(done) Hb) as Hl;
      pose proof (fun l => labelled_source_ids "languages" "languages" "language_ids"
                             _ _ _ l ltac:(done) Hb) as Hi
  end.
  framed. split; [at_block Hl | at_block Hi].
Qed.

Lemma role_label_spec contrib roles v :
  py_get contrib "roles" (JArr []) = Ok roles ->
  (if truthy roles
   then role ← py_item0 roles; py_get role "label" (JStr "Unknown")
   else Ok (JStr "Unknown")) = Ok v ->
  v = role_of contrib.
Proof.
  intros Hr H. apply py_get_field in Hr as ->. unfold role_of.
  destruct (field "roles" contrib) as [roles|]; simpl in H; [|by exec H].
  destruct roles as [| | | |[|role l]|]; simpl in H;
    try (exec H; done).
  - destruct s; simpl in H; exec H; done.
  - by apply py_get_field in H.
Qed.

(** [fields] reads [k in x] and [x[k]] as facts on [field k x]; [appended k l]
    then closes a goal on the list [parsed[k]], which held [l], after a body
    that appends to it at most once. *)
Ltac fields :=
  repeat
    match goal with
    | E : py_in ?k ?x = Ok true, G : py_getitem ?x ?k = Ok ?v |- _ =>
        let F := fresh "F" in
        pose proof (py_in_getitem k x v E G) as F; clear E; try rewrite F
    | E : py_in ?k ?x = Ok false |- _ => apply py_in_false in E; try rewrite E
    end.

Ltac appended k l :=
  try
    match goal with
    | Ha : list_append k _ ?q = Ok _ |- _ =>
        let Hq := fresh "Hq" in
        assert (q !! k = Some (JArr l)) as Hq by (framed; by chain);
        apply (list_append_lookup _ _ _ _ _ Ha) in Hq
    end;
  framed; rewrite ?app_nil_r; by chain.

Lemma contributor_labels contrib p p' l :
  contributor contrib p = Ok p' -> p !! "contributors" = Some (JArr l) ->
  p' !! "contributors" = Some (JArr (l ++ contributor_label contrib)).
Proof.
  intros H Hl. unfold contributor in H.
  apply bind_Ok in H as (agent & Hagent & H). apply py_get_field in Hagent.
  fold (agent_of contrib) in Hagent. subst agent.
  unfold contributor_label, label_of.
  exec H; fields; appended "contributors" l.
Qed.

Lemma contributor_ids contrib p p' l :
  contributor contrib p = Ok p' -> p !! "contributor_ids" = Some (JArr l) ->
  p' !! "contributor_ids" = Some (JArr (l ++ contributor_id contrib)).
Proof.
  intros H Hl. unfold contributor in H.
  apply bind_Ok in H as (agent & Hagent & H). apply py_get_field in Hagent.
  fold (agent_of contrib) in Hagent. subst agent.
  unfold contributor_id, id_of.
  exec H; fields; appended "contributor_ids" l.
Qed.

Lemma contributor_roles contrib p p' l :
  contributor contrib p = Ok p' -> p !! "contributor_roles" = Some (JArr l) ->
  p' !! "contributor_roles" = Some (JArr (l ++ contributor_role contrib)).
Proof.
  intros H Hl. unfold contributor in H.
  apply bind_Ok in H as (agent & Hagent & H). apply py_get_field in Hagent.
  fold (agent_of contrib) in Hagent. subst agent.
  unfold contributor_role.
  apply bind_Ok in H as (has_label & Hlabel & H). destruct has_label; [|exec H; fields; by rewrite app_nil_r].
  apply bind_Ok in H as (label & Hget & H). fields.
  apply bind_Ok in H as (p1 & H1 & H). apply bind_Ok in H as (has_id & _ & H).
  apply bind_Ok in H as (p2 & H2 & H). apply bind_Ok in H as (roles & Hroles & H).
  apply bind_Ok in H as (role_label & Hrole & H).
  rewrite (role_label_spec _ _ _ Hroles Hrole) in H.
  assert (p2 !! "contributor_roles" = Some (JArr l)) as Hq.
  { destruct has_id; exec H2; framed; by chain. }
  by apply (list_append_lookup _ _ _ _ _ H).
Qed.

Lemma collect_contributors work p :
  collect_fields work = Ok p ->
  let l := elements (field "contributors" work) in
  p !! "contributors" = Some (JArr (flat_map contributor_label l)) /\
  p !! "contributor_roles" = Some (JArr (flat_map contributor_role l)) /\
  p !! "contributor_ids" = Some (JArr (flat_map contributor_id l)).
Proof.
  intros H l. subst l. unfold collect_fields in H. exec H.
  match goal with
  | Hb : contributors _ _ = Ok _ |- _ =>
      pose proof (fun l => source_appends _ "contributors" contributor_label _ _ _ _ l
                             contributor_labels (fun _ => eq_refl) Hb) as Hl;
      pose proof (fun l => source_appends _ "contributor_roles" contributor_role _ _ _ _ l
                             contributor_roles (fun _ => eq_refl) Hb) as Hr;
      pose proof (fun l => source_appends _ "contributor_ids" contributor_id _ _ _ _ l
                             contributor_ids (fun _ => eq_refl) Hb) as Hi
  end.
  framed. split_and!; [at_block Hl | at_block Hr | at_block Hi].
Qed.

(** ** From [collect_fields] to [extract_all_fields] *)

Lemma extract_all_fields_Ok so work r :
  extract_all_fields so work = Ok r ->
  exists p, collect_fields work = Ok p /\ lists_to_strings so p = Ok r.
Proof. intros H. unfold extract_all_fields in H. by apply bind_Ok in H. Qed.

Lemma all_str_length l ss : all_str l = Ok ss -> length ss = length l.
Proof.
  revert ss. induction l as [|x l IH]; intros ss H; [simpl in H; by exec H|].
  destruct (all_str_cons _ _ _ H) as (s & ss' & -> & -> & Hl). simpl. by rewrite (IH ss').
Qed.

Lemma id_of_le_label_of l : length (flat_map id_of l) <= length (flat_map label_of l).
Proof.
  induction l as [|x l IH]; simpl; [done|]. rewrite !length_app.
  revert IH. generalize (length (flat_map id_of l)) (length (flat_map label_of l)).
  intros a b IH. unfold id_of, label_of. destruct (field "label" x); simpl; [|lia].
  destruct (field "id" x); simpl; lia.
Qed.

Lemma id_of_eq_label_of l :
  Forall (fun x => is_Some (field "label" x) -> is_Some (field "id" x)) l ->
  length (flat_map id_of l) = length (flat_map label_of l).
Proof.
  induction 1 as [|x l Hx _ IH]; simpl; [done|]. rewrite !length_app, IH. f_equal.
  unfold id_of, label_of. destruct (field "label" x); simpl; [|done].
  destruct Hx as [i ->]; [by eexists|done].
Qed.

Lemma contributor_role_eq_label l :
  length (flat_map contributor_role l) = length (flat_map contributor_label l).
Proof.
  induction l as [|x l IH]; simpl; [done|]. rewrite !length_app, IH. f_equal.
  unfold contributor_role, contributor_label, label_of.
  by destruct (field "label" (agent_of x)).
Qed.

Lemma contributor_id_le_label l :
  length (flat_map contributor_id l) <= length (flat_map contributor_label l).
Proof.
  induction l as [|x l IH]; simpl; [done|]. rewrite !length_app.
  revert IH.
  generalize (length (flat_map contributor_id l)) (length (flat_map contributor_label l)).
  intros a b IH. unfold contributor_id, contributor_label, id_of, label_of.
  destruct (field "label" (agent_of x)); simpl; [|lia].
  destruct (field "id" (agent_of x)); simpl; lia.
Qed.

Lemma extract_joins so work r k sep l :
  extract_all_fields so work = Ok r ->
  (k, sep) ∈ joined_with ->
  (forall p, collect_fields work = Ok p -> p !! k = Some (JArr l)) ->
  joins l sep (r !! k).
Proof.
  intros (p & Hp & Hr)%extract_all_fields_Ok Hin Hk.
  by eapply lists_to_strings_lookup; [| |apply Hk].
Qed.

Lemma joins_nil sep v : joins [] sep v -> v = Some JNull.
Proof. intros (ss & Hss & ->). simpl in Hss. by exec Hss. Qed.

Lemma joins_length l sep v :
  joins l sep v -> exists ss, length ss = length l /\ v = Some (joined sep ss).
Proof. intros (ss & Hss & ->). exists ss. split; [by apply all_str_length|done]. Qed.

Lemma is_ok_result x : is_ok x = true -> x = Ok (result_of x).
Proof. by destruct x. Qed.

(** [runs] proves [m = Ok (result_of m)] for a closed [m]. *)
Ltac runs := apply is_ok_result; vm_compute; reflexivity.

(** ** Contributors *)

(** C9. Every contributor whose agent has a label adds that label to
    [contributors], its agent's id to [contributor_ids] when the agent has
    one, and to [contributor_roles] the label of its first role or
    ['Unknown']; each of the three lists is joined with ["; "], and a list
    that stayed empty gives null. Without a [contributors] key the three
    fields are null. *)
Theorem contributors_fields so work r :
  extract_all_fields so work = Ok r ->
  let l := elements (field "contributors" work) in
  joins (flat_map contributor_label l) "; " (r !! "contributors") /\
  joins (flat_map contributor_role l) "; " (r !! "contributor_roles") /\
  joins (flat_map contributor_id l) "; " (r !! "contributor_ids") /\
  (field "contributors" work = None ->
   r !! "contributors" = Some JNull /\
   r !! "contributor_roles" = Some JNull /\
   r !! "contributor_ids" = Some JNull).
Proof.
  intros H l.
  assert (joins (flat_map contributor_label l) "; " (r !! "contributors") /\
          joins (flat_map contributor_role l) "; " (r !! "contributor_roles") /\
          joins (flat_map contributor_id l) "; " (r !! "contributor_ids"))
    as (H1 & H2 & H3).
  { split_and!; (eapply extract_joins; [done|unfold joined_with; elem_here|]);
      intros p Hp; by apply collect_contributors in Hp as (? & ? & ?). }
  split_and!; try done.
  intros Hnone. subst l. rewrite Hnone in *. simpl in *.
  split_and!; by eapply joins_nil.
Qed.

Lemma contributors_fields_witness :
  let r := result_of (extract_all_fields first_occurrence contributors_example) in
  extract_all_fields first_occurrence contributors_example = Ok r /\
  r !! "contributors" = Some (JStr "Ada; Bob") /\
  r !! "contributor_roles" = Some (JStr "author; Unknown") /\
  r !! "contributor_ids" = Some (JStr "a1").
Proof.
  intros r.
  assert (extract_all_fields first_occurrence contributors_example = Ok r) as H by runs.
  split; [exact H|].
  destruct (contributors_fields _ _ _ H)
    as ((s1 & E1 & Hr1) & (s2 & E2 & Hr2) & (s3 & E3 & Hr3) & _).
  vm_compute in E1, E2, E3.
  injection E1 as <-. injection E2 as <-. injection E3 as <-.
  split_and!; [exact Hr1 | exact Hr2 | exact Hr3].
Defined.

(** ** Lists of labels and lists of ids *)

(** C2, as stated, fails: a subject without an id is left out of
    [subject_ids], which then has fewer entries than [subjects]. *)
Lemma subject_ids_shorter_than_subjects :
  let p := result_of (collect_fields subjects_example) in
  let r := result_of (extract_all_fields first_occurrence subjects_example) in
  collect_fields subjects_example = Ok p /\
  extract_all_fields first_occurrence subjects_example = Ok r /\
  p !! "subjects" = Some (JArr [JStr "A"; JStr "B"]) /\
  p !! "subject_ids" = Some (JArr [JStr "b1"]) /\
  r !! "subjects" = Some (JStr "A; B") /\
  r !! "subject_ids" = Some (JStr "b1").
Proof.
  intros p r. split_and!; [runs | runs | | | | ]; vm_compute; reflexivity.
Qed.

(** C2, amended. In each group the list of labels has one entry for every
    item of the source list that has a label, in the order of the source
    list; the list of ids has an entry for those of these items that have an
    id too, and no entry for the others, in the group of the contributors as
    in those of the subjects, genres and languages. So a list of ids is at
    most as long as its list of labels, and as long when every item with a
    label has an id; the roles of the contributors go entry by entry with
    their labels. *)
Theorem label_and_id_lists so work r :
  extract_all_fields so work = Ok r ->
  (forall src labels ids, (src, labels, ids) ∈ label_id_groups ->
     let l := elements (field src work) in
     joins (flat_map label_of l) "; " (r !! labels) /\
     joins (flat_map id_of l) "; " (r !! ids) /\
     length (flat_map id_of l) <= length (flat_map label_of l) /\
     (ids_present l -> length (flat_map id_of l) = length (flat_map label_of l))) /\
  (let l := elements (field "contributors" work) in
   joins (flat_map contributor_label l) "; " (r !! "contributors") /\
   joins (flat_map contributor_role l) "; " (r !! "contributor_roles") /\
   joins (flat_map contributor_id l) "; " (r !! "contributor_ids") /\
   length (flat_map contributor_role l) = length (flat_map contributor_label l) /\
   length (flat_map contributor_id l) <= length (flat_map contributor_label l)).
Proof.
  intros H. split.
  - intros src labels ids Hin l. subst l. unfold label_id_groups in Hin.
    split_and!; [| |apply id_of_le_label_of|apply id_of_eq_label_of].
    + repeat (apply elem_of_cons in Hin as [Hin|Hin]; [injection Hin as -> -> ->|]);
        [| | |by apply elem_of_nil in Hin];
        (eapply extract_joins; [done|unfold joined_with; elem_here|]); intros p Hp.
      * by apply collect_subjects in Hp as [? ?].
      * by apply collect_genres in Hp as [? ?].
      * by apply collect_languages in Hp as [? ?].
    + repeat (apply elem_of_cons in Hin as [Hin|Hin]; [injection Hin as -> -> ->|]);
        [| | |by apply elem_of_nil in Hin];
        (eapply extract_joins; [done|unfold joined_with; elem_here|]); intros p Hp.
      * by apply collect_subjects in Hp as [? ?].
      * by apply collect_genres in Hp as [? ?].
      * by apply collect_languages in Hp as [? ?].
  - intros l. subst l.
    split_and!; [| | |apply contributor_role_eq_label|apply contributor_id_le_label];
      (eapply extract_joins; [done|unfold joined_with; elem_here|]);
      intros p Hp; by apply collect_contributors in Hp as (? & ? & ?).
Qed.

Lemma label_and_id_lists_witness :
  let r := result_of (extract_all_fields first_occurrence subjects_example) in
  extract_all_fields first_occurrence subjects_example = Ok r /\
  r !! "subjects" = Some (JStr "A; B") /\
  r !! "subject_ids" = Some (JStr "b1").
Proof.
  intros r.
  assert (extract_all_fields first_occurrence subjects_example = Ok r) as H by runs.
  split; [exact H|].
  destruct (label_and_id_lists _ _ _ H) as [Hg _].
  destruct (Hg "subjects" "subjects" "subject_ids" ltac:(unfold label_id_groups; elem_here))
    as ((s1 & E1 & Hr1) & (s2 & E2 & Hr2) & _).
  vm_compute in E1, E2. injection E1 as <-. injection E2 as <-.
  split; [exact Hr1 | exact Hr2].
Defined.

(** ** Production *)


Lemma falsy_not_cons v : truthy v = false -> forall x l, v <> JArr (x :: l).
Proof. intros H x l ->. discriminate. Qed.












(** ** Identifiers *)

Lemma route_routed_fields t k : route t = Some k -> k ∈ routed_fields.
Proof.
  unfold route, routed_fields. destruct t; try done.
  repeat (case_match; [intros [= <-]; elem_here|]). done.
Qed.

Lemma identifier_inv ident p p' :
  identifier ident p = Ok p' ->
  if usable ident
  then exists p1,
      list_append "identifiers"
        (JStr (py_format (ident_type ident) +:+ ":" +:+ py_format (ident_value ident))) p
      = Ok p1 /\
      match route (ident_type ident) with
      | Some k => p' = <[k := ident_value ident]> p1
      | None => p' = p1
      end
  else p' = p.
Proof.
  intros H. unfold identifier in H.
  apply bind_Ok in H as (it & Hit & H). apply py_get_field in Hit.
  apply bind_Ok in H as (t & Ht & H). apply py_get_field in Ht. subst it.
  apply bind_Ok in H as (v & Hv & H). apply py_get_field in Hv.
  fold (ident_type ident) in Ht. fold (ident_value ident) in Hv. subst t v.
  unfold usable. destruct (truthy (ident_type ident) && truthy (ident_value ident));
    [|by exec H].
  apply bind_Ok in H as (p1 & H1 & H). exists p1. split; [done|].
  unfold route. destruct (ident_type ident) as [| | |s| |]; simpl in H; by exec H.
Qed.

Lemma identifier_entries ident p p' l :
  identifier ident p = Ok p' -> p !! "identifiers" = Some (JArr l) ->
  p' !! "identifiers" = Some (JArr (l ++ identifier_entry ident)).
Proof.
  intros H Hl. apply identifier_inv in H. unfold identifier_entry.
  destruct (usable ident); [|subst; by rewrite app_nil_r].
  destruct H as (p1 & H1 & H). pose proof (list_append_lookup _ _ _ _ _ H1 Hl) as G.
  destruct (route (ident_type ident)) as [k|] eqn:Hk; subst; [|done].
  apply route_routed_fields in Hk. rewrite lookup_insert_ne; [done|].
  intros ->. unfold routed_fields in Hk. by repeat (apply elem_of_cons in Hk as [?|Hk]; [done|]);
    apply elem_of_nil in Hk.
Qed.

Lemma identifier_routes k ident p p' :
  k ∈ routed_fields ->
  identifier ident p = Ok p' -> p' !! k = last_or (routed k ident) (p !! k).
Proof.
  intros Hk H. apply identifier_inv in H. unfold routed.
  assert (k <> "identifiers") as Hne.
  { intros ->. unfold routed_fields in Hk.
    repeat (apply elem_of_cons in Hk as [?|Hk]; [done|]). by apply elem_of_nil in Hk. }
  destruct (usable ident); simpl; [|by subst].
  destruct H as (p1 & H1 & H). apply frame in H1 as [H1 _].
  destruct (route (ident_type ident)) as [k'|] eqn:Hk'; subst.
  - case_bool_decide as Heq.
    + injection Heq as ->. by rewrite lookup_insert_eq.
    + rewrite lookup_insert_ne by congruence. rewrite H1 by notin. done.
  - rewrite bool_decide_eq_false_2 by done. rewrite H1 by notin. done.
Qed.

Lemma last_or_Some {A : Type} (l : list A) (d : A) :
  last_or l (Some d) = Some (default d (last l)).
Proof. unfold last_or. by destruct (last l). Qed.

Lemma collect_identifiers work p :
  collect_fields work = Ok p ->
  let l := elements (field "identifiers" work) in
  p !! "identifiers" = Some (JArr (flat_map identifier_entry l)) /\
  (forall k, k ∈ routed_fields ->
             p !! k = Some (default JNull (last (flat_map (routed k) l)))).
Proof.
  intros H l. subst l. unfold collect_fields in H. exec H.
  match goal with
  | Hb : identifiers _ _ = Ok _ |- _ =>
      pose proof (fun l => source_appends _ "identifiers" identifier_entry _ _ _ _ l
                             identifier_entries (fun _ => eq_refl) Hb) as Hl;
      pose proof (fun k (Hk : k ∈ routed_fields) =>
                    source_assigns _ k (routed k) _ _ _ _
                      (fun x q q' => identifier_routes k x q q' Hk)
                      (fun _ => eq_refl) Hb) as Hr
  end.
  split.
  - framed. at_block Hl.
  - intros k Hk. specialize (Hr k Hk). rewrite <- last_or_Some.
    unfold routed_fields in Hk.
    repeat (apply elem_of_cons in Hk as [->|Hk];
            [framed; chain; rewrite Hr; f_equal; chain; initial|]).
    by apply elem_of_nil in Hk.
Qed.

(** Every identifier assigns to one scalar field at most. *)
Lemma routed_one_field k k' ident : routed k ident <> [] -> routed k' ident <> [] -> k = k'.
Proof.
  unfold routed. destruct (usable ident); simpl; [|done].
  do 2 case_bool_decide; try done. congruence.
Qed.

Lemma extract_identifiers so work r :
  extract_all_fields so work = Ok r ->
  identifier_fields (elements (field "identifiers" work)) r.
Proof.
  intros (p & Hp & Hr)%extract_all_fields_Ok.
  destruct (collect_identifiers _ _ Hp) as [G1 G2]. split.
  - eapply lists_to_strings_lookup; [exact Hr|unfold joined_with; elem_here|done].
  - intros k Hk. rewrite <- (G2 k Hk). apply (lists_to_strings_other _ _ _ _ Hr).
    unfold routed_fields in Hk. unfold joined_keys.
    repeat (apply elem_of_cons in Hk as [->|Hk]; [notin|]). by apply elem_of_nil in Hk.
Qed.

Lemma is_prefix_iff p s : is_prefix p s = true <-> exists post, s = p +:+ post.
Proof.
  revert s. induction p as [|a p IH]; intros s; simpl.
  - split; [intros _; by exists s|done].
  - destruct s as [|b s]; [split; [done|intros [post ?]; discriminate]|].
    rewrite andb_true_iff, IH. split.
    + intros [Hab [post ->]]. apply Ascii.eqb_eq in Hab as ->. by exists post.
    + intros [post [= -> ->]]. split; [apply Ascii.eqb_refl|by exists post].
Qed.

Lemma is_substring_iff p s :
  is_substring p s = true <-> exists pre post, s = pre +:+ p +:+ post.
Proof.
  induction s as [|b s IH].
  - simpl. rewrite orb_false_r, is_prefix_iff. split.
    + intros [post H]. by exists "", post.
    + intros (pre & post & H). destruct pre; [by exists post|discriminate].
  - cbn [is_substring]. rewrite orb_true_iff, is_prefix_iff, IH. split.
    + intros [[post H]|(pre & post & H)].
      * by exists "", post.
      * exists (String b pre), post. simpl. by rewrite H.
    + intros (pre & post & H). destruct pre as [|c pre].
      * left. by exists post.
      * right. injection H as -> ->. by exists pre, post.
Qed.

Lemma lower_app s t : lower (s +:+ t) = lower s +:+ lower t.
Proof. induction s as [|c s IH]; simpl; [done|by rewrite IH]. Qed.

Lemma lower_app_inv t a b :
  lower t = a +:+ b -> exists x y, t = x +:+ y /\ lower x = a /\ lower y = b.
Proof.
  revert t. induction a as [|c a IH]; intros t H.
  - by exists "", t.
  - destruct t as [|d t]; [discriminate|]. simpl in H. injection H as Hc H.
    destruct (IH _ H) as (x & y & -> & Hx & Hy).
    exists (String d x), y. simpl. by rewrite Hc, Hx.
Qed.

Lemma lower_char_either_case d c :
  97 <= nat_of_ascii d <= 122 -> lower_char c = d <-> either_case d c.
Proof.
  intros Hd. unfold lower_char, either_case.
  pose proof (nat_ascii_bounded c) as Hc.
  destruct ((65 <=? nat_of_ascii c) && (nat_of_ascii c <=? 90)
            || (192 <=? nat_of_ascii c) && (nat_of_ascii c <=? 222)
               && negb (nat_of_ascii c =? 215))%nat eqn:E.
  - assert (65 <= nat_of_ascii c <= 90 \/ 192 <= nat_of_ascii c <= 222) as Hup.
    { apply orb_true_iff in E as [E|E]; rewrite !andb_true_iff, !Nat.leb_le in E; lia. }
    split.
    + intros <-. right. rewrite nat_ascii_embedding; [done|lia].
    + intros [->|H]; [lia|]. rewrite H. apply ascii_nat_embedding.
  - assert (~ 65 <= nat_of_ascii c <= 90) as Hup.
    { apply orb_false_iff in E as [E _]. apply andb_false_iff in E as [E|E];
        rewrite Nat.leb_gt in E; lia. }
    split; [by left|]. intros [H|H]; [done|lia].
Qed.

Lemma lower_either_case word w :
  Forall (fun d => 97 <= nat_of_ascii d <= 122) (list_ascii_of_string word) ->
  lower w = word <->
  Forall2 either_case (list_ascii_of_string word) (list_ascii_of_string w).
Proof.
  revert w. induction word as [|d word IH]; intros w Hword.
  - destruct w; simpl; split; try done; intros H; by inversion H.
  - simpl in Hword. apply Forall_cons in Hword as [Hd Hword].
    destruct w as [|c w]; simpl.
    + split; [done|intros H; by inversion H].
    + split.
      * intros [= Hc Hw]. constructor; [by apply lower_char_either_case|by apply IH].
      * intros H. apply Forall2_cons in H as [Hc Hw].
        f_equal; [by apply lower_char_either_case|by apply IH].
Qed.

Lemma wellcome_ignoring_case t :
  is_substring "wellcome" (lower t) = true <-> contains_ignoring_case "wellcome" t.
Proof.
  assert (Forall (fun d => 97 <= nat_of_ascii d <= 122) (list_ascii_of_string "wellcome"))
    as Hword by (repeat constructor; vm_compute; lia).
  rewrite is_substring_iff. unfold contains_ignoring_case. split.
  - intros (pre & post & H). apply lower_app_inv in H as (x & y & -> & Hx & Hy).
    apply lower_app_inv in Hy as (w & z & -> & Hw & Hz).
    exists x, w, z. split; [done|]. by apply lower_either_case.
  - intros (pre & w & post & -> & Hw). apply lower_either_case in Hw; [|done].
    exists (lower pre), (lower post). by rewrite !lower_app, Hw.
Qed.

Lemma route_rule t k : route (JStr t) = Some k <-> routing_rule t k.
Proof.
  unfold route, routing_rule. rewrite <- wellcome_ignoring_case.
  destruct (String.eqb_spec t "isbn") as [->|H1].
  { split; [intros [= <-]; by left|]. intros [[_ ->]|[[? _]|[[? _]|[? _]]]]; done. }
  destruct (String.eqb_spec t "issn") as [->|H2].
  { split; [intros [= <-]; right; by left|]. intros [[? _]|[[_ ->]|[[? _]|[? _]]]]; done. }
  destruct (String.eqb_spec t "sierra-system-number") as [->|H3].
  { split; [intros [= <-]; right; right; by left|].
    intros [[? _]|[[? _]|[[_ ->]|[? _]]]]; done. }
  destruct (is_substring "wellcome" (lower t)).
  - split; [intros [= <-]; by repeat right|]. intros [[? _]|[[? _]|[[? _]|[_ ->]]]]; done.
  - split; [done|]. intros [[? _]|[[? _]|[[? _]|[? _]]]]; done.
Qed.

Lemma routing_rule_one_field t k k' : routing_rule t k -> routing_rule t k' -> k = k'.
Proof. rewrite <- !route_rule. congruence. Qed.

Lemma string_truthy s : truthy (JStr s) = true <-> s <> "".
Proof. simpl. destruct (String.eqb_spec s ""); simpl; split; done. Qed.

(** What an identifier whose type id and value are the strings [t] and [v]
    adds and assigns. *)
Lemma string_identifier ident t v :
  ident_type ident = JStr t -> ident_value ident = JStr v ->
  (t = "" \/ v = "" -> identifier_entry ident = [] /\ forall k, routed k ident = []) /\
  (t <> "" -> v <> "" ->
   identifier_entry ident = [JStr (t +:+ ":" +:+ v)] /\
   forall k, (routing_rule t k -> routed k ident = [JStr v]) /\
             (~ routing_rule t k -> routed k ident = [])).
Proof.
  intros Ht Hv. unfold identifier_entry, routed, usable. rewrite Ht, Hv. split.
  - intros [-> | ->]; simpl; [done|]. by rewrite andb_false_r.
  - intros Ht' Hv'. apply string_truthy in Ht', Hv'. rewrite Ht', Hv'. simpl.
    split; [done|]. intros k. rewrite <- route_rule. split.
    + intros H. by rewrite bool_decide_eq_true_2.
    + intros H. by rewrite bool_decide_eq_false_2.
Qed.

Lemma doi_no_rule k : ~ routing_rule "doi" k.
Proof. rewrite <- route_rule. by vm_compute. Qed.

(** C4, as stated, fails: an identifier of the type [doi] is added to
    [identifiers] and is routed to none of the four scalar fields. *)
Lemma doi_routed_to_no_field :
  let r := result_of (extract_all_fields first_occurrence doi_example) in
  extract_all_fields first_occurrence doi_example = Ok r /\
  r !! "identifiers" = Some (JStr "doi:10.1") /\
  r !! "isbn" = Some JNull /\
  r !! "issn" = Some JNull /\
  r !! "sierra_system_number" = Some JNull /\
  r !! "wellcome_library_number" = Some JNull.
Proof.
  intros r. split_and!; [runs | | | | | ]; vm_compute; reflexivity.
Qed.

(** C4, amended. An identifier whose type id and value are both non-empty
    adds ["type:value"] to [identifiers], joined with ["; "], and is assigned
    to one scalar field at most, the one its type id is routed to: [isbn],
    [issn] and [sierra_system_number] for the type ids [isbn], [issn] and
    [sierra-system-number], [wellcome_library_number] for a type id that
    contains [wellcome], whatever the case of its letters and wherever in the
    type id; an identifier of another type, such as [doi], is assigned to no
    scalar field, and one without a type id or without a value adds and
    assigns nothing. A scalar field holds the value of the last identifier
    routed to it, or null. The identifiers [isbn] 123 and [wellcome-number]
    W1 give [isbn = "123"], [wellcome_library_number = "W1"] and
    [identifiers = "isbn:123; wellcome-number:W1"]. *)
Theorem identifiers_routed so work r :
  extract_all_fields so work = Ok r ->
  identifier_fields (elements (field "identifiers" work)) r /\
  (forall ident t v,
     ident_type ident = JStr t -> ident_value ident = JStr v ->
     (t = "" \/ v = "" -> identifier_entry ident = [] /\ forall k, routed k ident = []) /\
     (t <> "" -> v <> "" ->
      identifier_entry ident = [JStr (t +:+ ":" +:+ v)] /\
      forall k, (routing_rule t k -> routed k ident = [JStr v]) /\
                (~ routing_rule t k -> routed k ident = []))) /\
  (forall t k k', routing_rule t k -> routing_rule t k' -> k = k') /\
  (forall k, ~ routing_rule "doi" k) /\
  (forall k k' ident, routed k ident <> [] -> routed k' ident <> [] -> k = k') /\
  (forall ident k, routed k ident <> [] ->
     usable ident = true /\ route (ident_type ident) = Some k /\
     routed k ident = [ident_value ident]) /\
  (field "identifiers" work = Some identifiers_example ->
   r !! "isbn" = Some (JStr "123") /\
   r !! "wellcome_library_number" = Some (JStr "W1") /\
   r !! "identifiers" = Some (JStr "isbn:123; wellcome-number:W1")).
Proof.
  intros H. pose proof (extract_identifiers _ _ _ H) as [G1 G2]. split_and!.
  - by split.
  - apply string_identifier.
  - apply routing_rule_one_field.
  - apply doi_no_rule.
  - apply routed_one_field.
  - intros ident k. unfold routed. destruct (usable ident); simpl; [|done].
    case_bool_decide; done.
  - intros Hex. rewrite Hex in G1, G2. simpl in G1, G2.
    rewrite (G2 "isbn") by (unfold routed_fields; elem_here).
    rewrite (G2 "wellcome_library_number") by (unfold routed_fields; elem_here).
    destruct G1 as (ss & Hss & ->). vm_compute in Hss. injection Hss as <-.
    split_and!; vm_compute; reflexivity.
Qed.

Lemma identifiers_routed_witness :
  let work := JObj [("identifiers", identifiers_mixed_example)] in
  let r := result_of (extract_all_fields first_occurrence work) in
  extract_all_fields first_occurrence work = Ok r /\
  r !! "identifiers" = Some (JStr "isbn:123; The-WellCome-Library:W1; doi:10.1") /\
  r !! "isbn" = Some (JStr "123") /\
  r !! "issn" = Some JNull /\
  r !! "sierra_system_number" = Some JNull /\
  r !! "wellcome_library_number" = Some (JStr "W1").
Proof.
  intros work r.
  assert (extract_all_fields first_occurrence work = Ok r) as H by runs.
  split; [exact H|].
  destruct (identifiers_routed _ _ _ H) as ([(ss & E & G1) G2] & _).
  vm_compute in E. injection E as <-.
  split_and!.
  - exact G1.
  - apply (G2 "isbn"). unfold routed_fields. elem_here.
  - apply (G2 "issn"). unfold routed_fields. elem_here.
  - apply (G2 "sierra_system_number"). unfold routed_fields. elem_here.
  - apply (G2 "wellcome_library_number"). unfold routed_fields. elem_here.
Defined.

(** ** Items *)

Lemma access_condition_statuses condition p p' l :
  access_condition condition p = Ok p' ->
  p !! "availability_status" = Some (JArr l) ->
  p' !! "availability_status" = Some (JArr (l ++ status_of condition)).
Proof.
  intros H Hl. unfold access_condition in H. unfold status_of.
  exec H; fields; rewrite ?app_nil_r; try done.
  - match goal with
    | Hg : py_get _ "label" JNull = Ok _ |- _ => apply py_get_field in Hg; subst
    end.
    rewrite E3. by eapply list_append_lookup.
  - match goal with
    | Hg : py_get _ "label" JNull = Ok _ |- _ => apply py_get_field in Hg; subst
    end.
    rewrite E3. by rewrite app_nil_r.
Qed.

Lemma location_statuses_lookup loc p p' l :
  location loc p = Ok p' ->
  p !! "availability_status" = Some (JArr l) ->
  p' !! "availability_status" = Some (JArr (l ++ location_statuses loc)).
Proof.
  intros H Hl. unfold location in H. unfold location_statuses.
  apply bind_Ok in H as (lt & _ & H). apply bind_Ok in H as (lid & _ & H).
  cbv zeta in H. apply bind_Ok in H as (acs & Hacs & H).
  apply py_get_field in Hacs as ->. rewrite <- elements_default.
  eapply (py_for_appends _ status_of); [apply access_condition_statuses|done|exact H|].
  destruct (py_eq_str lid "online"); [by rewrite lookup_insert_ne|done].
Qed.

Lemma location_marks loc p p' :
  location loc p = Ok p' ->
  p' !! "has_digitized_items" = last_or (online_mark loc) (p !! "has_digitized_items").
Proof.
  intros H. unfold location in H. unfold online_mark, is_online.
  apply bind_Ok in H as (lt & Hlt & H). apply py_get_field in Hlt as ->.
  apply bind_Ok in H as (lid & Hlid & H). apply py_get_field in Hlid as ->.
  cbv zeta in H. apply bind_Ok in H as (acs & _ & H).
  apply frame in H as [H _]. rewrite H by notin.
  destruct (py_eq_str _ "online"); [by rewrite lookup_insert_eq|done].
Qed.

Lemma item_statuses_lookup it p p' l :
  item it p = Ok p' ->
  p !! "availability_status" = Some (JArr l) ->
  p' !! "availability_status" = Some (JArr (l ++ item_statuses it)).
Proof.
  intros H Hl. unfold item in H.
  by eapply (source_appends _ _ location_statuses);
    [apply location_statuses_lookup|done|exact H|].
Qed.

Lemma item_marks_lookup it p p' :
  item it p = Ok p' ->
  p' !! "has_digitized_items" = last_or (item_marks it) (p !! "has_digitized_items").
Proof.
  intros H. unfold item in H.
  by eapply (source_assigns _ _ online_mark); [apply location_marks|done|exact H].
Qed.

(** [len(items)] is the number of items of the list the loop then runs
    over: the loop raises on a non-empty string or dict. *)
Lemma items_count_lookup work p p' :
  items work p = Ok p' ->
  p' !! "items_count"
  = Some (JNum (Z.of_nat (length (elements (field "items" work))))).
Proof.
  intros H. unfold items in H.
  apply bind_Ok in H as (its & Hits & H). apply py_get_field in Hits.
  apply bind_Ok in H as (n & Hn & H). cbv zeta in H.
  pose proof H as H'. apply frame in H' as [H' _]. rewrite H' by notin.
  rewrite lookup_insert_eq. f_equal. rewrite <- elements_default, <- Hits.
  unfold py_for in H. apply bind_Ok in H as (l & Hl & H).
  destruct its as [| | |s|l'|kv]; simpl in Hn, Hl; try discriminate.
  - injection Hn as <-. injection Hl as <-. destruct s as [|c s]; [done|].
    simpl in H. by exec H.
  - by injection Hn as <-.
  - injection Hn as <-. injection Hl as <-. destruct kv as [|[k v] kv]; [done|].
    simpl in H. by exec H.
Qed.

Lemma items_lookup work p p' l :
  items work p = Ok p' ->
  p !! "availability_status" = Some (JArr l) ->
  let its := elements (field "items" work) in
  p' !! "availability_status" = Some (JArr (l ++ flat_map item_statuses its)) /\
  p' !! "has_digitized_items"
  = last_or (flat_map item_marks its) (p !! "has_digitized_items").
Proof.
  intros H Hl its. subst its. unfold items in H.
  apply bind_Ok in H as (its & Hits & H). apply py_get_field in Hits.
  apply bind_Ok in H as (n & Hn & H). cbv zeta in H.
  rewrite <- elements_default, <- Hits. split.
  - eapply (py_for_appends _ item_statuses); [apply item_statuses_lookup|done|exact H|].
    by rewrite lookup_insert_ne.
  - rewrite (py_for_assigns _ item_marks _ item_marks_lookup (fun _ => eq_refl) _ _ _ H).
    by rewrite lookup_insert_ne.
Qed.

Lemma collect_items work p :
  collect_fields work = Ok p ->
  let l := elements (field "items" work) in
  p !! "items_count" = Some (JNum (Z.of_nat (length l))) /\
  p !! "has_digitized_items" = Some (default (JBool false) (last (flat_map item_marks l))) /\
  p !! "availability_status" = Some (JArr (flat_map item_statuses l)).
Proof.
  intros H l. subst l. unfold collect_fields in H. exec H.
  match goal with
  | Hb : items _ ?pa = Ok _ |- _ =>
      pose proof (items_count_lookup _ _ _ Hb) as Hc;
      assert (pa !! "availability_status" = Some (JArr [])) as Ha
        by (framed; chain; initial);
      assert (pa !! "has_digitized_items" = Some (JBool false)) as Hd
        by (framed; chain; initial);
      destruct (items_lookup _ _ _ _ Hb Ha) as [Hl Hm]; rewrite Hd in Hm
  end.
  rewrite <- last_or_Some. framed. split_and!; by chain.
Qed.

Lemma nonempty_app {A : Type} (l1 l2 : list A) :
  nonempty (l1 ++ l2) = nonempty l1 || nonempty l2.
Proof. by destruct l1. Qed.

Lemma nonempty_online_marks locs :
  nonempty (flat_map online_mark locs) = existsb is_online locs.
Proof.
  induction locs as [|loc locs IH]; [done|]. simpl. rewrite nonempty_app, IH.
  unfold online_mark. by destruct (is_online loc).
Qed.

Lemma nonempty_item_marks its : nonempty (flat_map item_marks its) = has_online its.
Proof.
  induction its as [|it its IH]; [done|]. simpl. rewrite nonempty_app, IH.
  unfold item_marks. by rewrite nonempty_online_marks.
Qed.

Lemma item_marks_true its : Forall (eq (JBool true)) (flat_map item_marks its).
Proof.
  induction its as [|it its IH]; simpl; [done|]. apply Forall_app. split; [|done].
  unfold item_marks. induction (elements (field "locations" it)) as [|loc locs IHl];
    simpl; [done|].
  apply Forall_app. split; [|done]. unfold online_mark.
  destruct (is_online loc); by repeat constructor.
Qed.

Lemma last_item_marks its :
  default (JBool false) (last (flat_map item_marks its)) = JBool (has_online its).
Proof.
  rewrite <- nonempty_item_marks. pose proof (item_marks_true its) as Hall.
  destruct (last (flat_map item_marks its)) as [v|] eqn:Hlast; simpl.
  - pose proof (last_Some_elem_of _ _ Hlast) as Hin.
    rewrite Forall_forall in Hall. rewrite <- (Hall v Hin).
    by destruct (flat_map item_marks its).
  - apply last_None in Hlast. by rewrite Hlast.
Qed.

(** The item fields of a record whose list of items is [l]. *)
Lemma extract_items so work r :
  extract_all_fields so work = Ok r ->
  let l := elements (field "items" work) in
  r !! "items_count" = Some (JNum (Z.of_nat (length l))) /\
  r !! "has_digitized_items" = Some (JBool (has_online l)) /\
  exists labels,
    all_str (flat_map item_statuses l) = Ok labels /\
    r !! "availability_status" = Some (joined "; " (set_list so labels)).
Proof.
  intros (p & Hp & Hr)%extract_all_fields_Ok l. subst l.
  destruct (collect_items _ _ Hp) as (G1 & G2 & G3).
  rewrite !(lists_to_strings_other _ _ _ _ Hr) by (unfold joined_keys; notin).
  rewrite last_item_marks in G2. split_and!; [done|done|].
  by eapply lists_to_strings_availability.
Qed.

Lemma set_list_nil so : set_list so [] = [].
Proof.
  destruct (set_list so []) as [|s ss] eqn:Hs; [done|].
  assert (s ∈ @nil string) as Hin by (apply (set_list_elem so); rewrite Hs; constructor).
  by apply elem_of_nil in Hin.
Qed.




Lemma status_of_truthy condition : Forall (fun v => truthy v = true) (status_of condition).
Proof.
  unfold status_of. destruct (field "status" condition) as [st|]; [|done]. simpl.
  destruct (truthy _) eqn:Ht; by repeat constructor.
Qed.

Lemma item_statuses_truthy its :
  Forall (fun v => truthy v = true) (flat_map item_statuses its).
Proof.
  induction its as [|it its IH]; simpl; [done|]. apply Forall_app. split; [|done].
  unfold item_statuses.
  induction (elements (field "locations" it)) as [|loc locs IHl]; simpl; [done|].
  apply Forall_app. split; [|done]. unfold location_statuses.
  induction (elements (field "accessConditions" loc)) as [|c cs IHc]; simpl; [done|].
  apply Forall_app. split; [apply status_of_truthy|done].
Qed.

Lemma item_statuses_conditions l :
  flat_map item_statuses l = flat_map status_of (conditions_of l).
Proof.
  unfold conditions_of. induction l as [|it its IH]; [done|].
  simpl. rewrite flat_map_app, IH. f_equal. unfold item_statuses.
  induction (elements (field "locations" it)) as [|loc locs IHl]; [done|].
  simpl. by rewrite flat_map_app, IHl.
Qed.

Lemma all_str_elem l ss s : all_str l = Ok ss -> s ∈ ss <-> JStr s ∈ l.
Proof.
  revert ss. induction l as [|x l IH]; intros ss H.
  - simpl in H. injection H as <-. split; intros Hin; by apply elem_of_nil in Hin.
  - destruct (all_str_cons _ _ _ H) as (s' & ss' & -> & -> & Hl).
    rewrite !elem_of_cons, (IH _ Hl). split; intros [Heq|?]; auto; left; congruence.
Qed.

Lemma status_of_elem condition s :
  JStr s ∈ status_of condition <->
  s <> "" /\ exists status,
    field "status" condition = Some status /\ field "label" status = Some (JStr s).
Proof.
  unfold status_of. destruct (field "status" condition) as [status|].
  - destruct (field "label" status) as [label|] eqn:Hlabel; simpl.
    + destruct (truthy label) eqn:Ht.
      * rewrite list_elem_of_singleton. split.
        -- intros <-. split; [by apply string_truthy|by exists status].
        -- intros (_ & st & [= <-] & Hl). congruence.
      * split; [intros Hin; by apply elem_of_nil in Hin|].
        intros (Hs & st & [= <-] & Hl). apply string_truthy in Hs. congruence.
    + split; [intros Hin; by apply elem_of_nil in Hin|].
      intros (_ & st & [= <-] & Hl). congruence.
  - split; [intros Hin; by apply elem_of_nil in Hin|]. by intros (_ & st & ? & _).
Qed.

Lemma item_statuses_elem l s :
  JStr s ∈ flat_map item_statuses l <-> s <> "" /\ status_label l s.
Proof.
  unfold status_label. rewrite list_elem_of_In, in_flat_map. split.
  - intros (it & Hit & Hin). unfold item_statuses in Hin.
    apply in_flat_map in Hin as (loc & Hloc & Hin). unfold location_statuses in Hin.
    apply in_flat_map in Hin as (c & Hc & Hin).
    apply list_elem_of_In, status_of_elem in Hin as (Hs & status & Hst & Hl).
    split; [done|]. exists it, loc, c, status. by rewrite !list_elem_of_In.
  - intros (Hs & it & loc & c & status & Hit & Hloc & Hc & Hst & Hl).
    rewrite list_elem_of_In in Hit, Hloc, Hc.
    exists it. split; [done|]. unfold item_statuses. apply in_flat_map.
    exists loc. split; [done|]. unfold location_statuses. apply in_flat_map.
    exists c. split; [done|]. apply list_elem_of_In, status_of_elem. eauto.
Qed.

Lemma set_list_singleton so x : set_list so [x] = [x].
Proof.
  pose proof (set_list_NoDup so [x]) as Hnd.
  pose proof (set_list_elem so [x]) as Hel.
  destruct (set_list so [x]) as [|y [|z l]].
  - assert (x ∈ @nil string) as Hin by (apply Hel; constructor). by apply elem_of_nil in Hin.
  - assert (y ∈ [x]) as Hin by (apply Hel; constructor).
    by apply list_elem_of_singleton in Hin as ->.
  - assert (y ∈ [x]) as Hy by (apply Hel; constructor).
    assert (z ∈ [x]) as Hz by (apply Hel; constructor; constructor).
    apply list_elem_of_singleton in Hy as ->. apply list_elem_of_singleton in Hz as ->.
    apply NoDup_cons in Hnd as [Hnd _]. destruct Hnd. constructor.
Qed.

(** C10. In every record an access condition whose status has no label, a
    null label or an empty label adds nothing to [availability_status]: the
    field is the join of the distinct non-empty labels of the statuses of the
    record, each once, and of nothing else. A record all of whose access
    conditions have such a status has a null [availability_status]; with the
    labels [""], ["Open"], none and null the field is ["Open"]. *)
Theorem falsy_status_labels_skipped so work r :
  extract_all_fields so work = Ok r ->
  let l := elements (field "items" work) in
  (exists ss,
     r !! "availability_status" = Some (joined "; " ss) /\ NoDup ss /\
     forall s, s ∈ ss <-> s <> "" /\ status_label l s) /\
  (Forall (fun condition =>
             exists status, field "status" condition = Some status /\
               (field "label" status = None \/ field "label" status = Some JNull \/
                field "label" status = Some (JStr ""))) (conditions_of l) ->
   r !! "availability_status" = Some JNull) /\
  (work = mixed_labels_example -> r !! "availability_status" = Some (JStr "Open")).
Proof.
  intros H l. destruct (extract_items _ _ _ H) as (_ & _ & labels & G3 & G4).
  fold l in G3. split_and!.
  - exists (set_list so labels). split; [done|]. split; [apply set_list_NoDup|].
    intros s. by rewrite set_list_elem, (all_str_elem _ _ _ G3), item_statuses_elem.
  - intros Hall. rewrite item_statuses_conditions in G3.
    rewrite flat_map_nil in G3.
    + simpl in G3. injection G3 as <-. by rewrite G4, set_list_nil.
    + intros c Hc. rewrite Forall_forall in Hall.
      destruct (Hall c Hc) as (st & Hst & Hlabel). unfold status_of. rewrite Hst.
      by destruct Hlabel as [->|[->| ->]].
  - intros ->. vm_compute in G3. injection G3 as <-.
    by rewrite G4, set_list_singleton.
Qed.

Lemma falsy_status_labels_skipped_witness :
  let r := result_of (extract_all_fields first_occurrence mixed_labels_example) in
  let r' := result_of (extract_all_fields first_occurrence empty_label_example) in
  extract_all_fields first_occurrence mixed_labels_example = Ok r /\
  r !! "availability_status" = Some (JStr "Open") /\
  extract_all_fields first_occurrence empty_label_example = Ok r' /\
  r' !! "availability_status" = Some JNull.
Proof.
  intros r r'.
  assert (extract_all_fields first_occurrence mixed_labels_example = Ok r) as H by runs.
  assert (extract_all_fields first_occurrence empty_label_example = Ok r') as H' by runs.
  split; [exact H|]. split.
  - destruct (falsy_status_labels_skipped _ _ _ H) as (_ & _ & G). by apply G.
  - split; [exact H'|].
    destruct (falsy_status_labels_skipped _ _ _ H') as (_ & G & _). apply G.
    vm_compute. repeat constructor; eexists; (split; [reflexivity|]); auto.
Defined.

(** ** The keys of a flat record and their defaults *)

Lemma initial_parsed_dom work p :
  initial_parsed work = Ok p -> dom p = list_to_set fixed_keys.
Proof. intros H. unfold initial_parsed in H. exec H. by rewrite dom_list_to_map_L. Qed.

Lemma initial_parsed_copied work p k :
  initial_parsed work = Ok p -> k ∈ copied_keys ->
  p !! k = Some (default JNull (field k work)).
Proof.
  intros H Hin. unfold initial_parsed in H. exec H.
  repeat match goal with E : py_get _ _ _ = Ok _ |- _ => apply py_get_field in E end.
  subst. unfold copied_keys in Hin.
  repeat (apply elem_of_cons in Hin as [->|Hin]; [reflexivity|]).
  by apply elem_of_nil in Hin.
Qed.

Lemma initial_parsed_workType work p :
  initial_parsed work = Ok p ->
  let workType := default (JObj []) (field "workType" work) in
  p !! "workType" = Some (default JNull (field "label" workType)) /\
  p !! "workType_id" = Some (default JNull (field "id" workType)).
Proof.
  intros H. unfold initial_parsed in H. exec H.
  repeat match goal with E : py_get _ _ _ = Ok _ |- _ => apply py_get_field in E end.
  subst. split; reflexivity.
Qed.

Lemma extract_all_fields_dom so work r :
  extract_all_fields so work = Ok r -> dom r = list_to_set fixed_keys.
Proof.
  intros H. unfold extract_all_fields, collect_fields, lists_to_strings in H. exec H.
  match goal with
  | Hi : initial_parsed _ = Ok ?p0 |- _ =>
      pose proof (initial_parsed_dom _ _ Hi) as Hdom;
      assert (dom p0 ⊆ dom r) as Hsub by (framed; dom_chain);
      assert (forall k, k ∉ fixed_keys -> r !! k = p0 !! k) as Hout
        by (intros k Hk; unfold fixed_keys in Hk; framed; by chain)
  end.
  apply (anti_symm (⊆)); [|by rewrite <- Hdom].
  intros k Hk. destruct (decide (k ∈ fixed_keys)) as [Hin|Hnin].
  - by apply elem_of_list_to_set.
  - rewrite <- Hdom. apply elem_of_dom. rewrite <- (Hout k Hnin). by apply elem_of_dom.
Qed.

Lemma py_get_absent_or e src work v :
  absent_or e src work -> py_get work src e = Ok v -> v = e.
Proof. intros [Hf|Hf] Hv; apply py_get_field in Hv; by rewrite Hf in Hv. Qed.

Lemma py_for_nil body p p' : py_for (JArr []) body p = Ok p' -> p' = p.
Proof. intros H. unfold py_for in H. simpl in H. by exec H. Qed.

(** [skip] runs a block whose source is absent or empty. *)
Ltac skip :=
  intros Hsrc H;
  apply bind_Ok in H as (v & Hv & H);
  apply (py_get_absent_or _ _ _ _ Hsrc) in Hv; subst v;
  first [ by apply py_for_nil in H | simpl in H; by exec H ].

Lemma alternative_titles_skip work p p' :
  absent_or (JArr []) "alternativeTitles" work ->
  alternative_titles work p = Ok p' -> p' = p.
Proof. unfold alternative_titles. skip. Qed.

Lemma production_info_skip work p p' :
  absent_or (JArr []) "production" work -> production_info work p = Ok p' -> p' = p.
Proof. unfold production_info. skip. Qed.

Lemma contributors_skip work p p' :
  absent_or (JArr []) "contributors" work -> contributors work p = Ok p' -> p' = p.
Proof. unfold contributors. skip. Qed.

Lemma subjects_skip work p p' :
  absent_or (JArr []) "subjects" work -> subjects work p = Ok p' -> p' = p.
Proof. unfold subjects. skip. Qed.

Lemma genres_skip work p p' :
  absent_or (JArr []) "genres" work -> genres work p = Ok p' -> p' = p.
Proof. unfold genres. skip. Qed.

Lemma languages_skip work p p' :
  absent_or (JArr []) "languages" work -> languages work p = Ok p' -> p' = p.
Proof. unfold languages. skip. Qed.

Lemma identifiers_skip work p p' :
  absent_or (JArr []) "identifiers" work -> identifiers work p = Ok p' -> p' = p.
Proof. unfold identifiers. skip. Qed.

Lemma notes_skip work p p' :
  absent_or (JArr []) "notes" work -> notes work p = Ok p' -> p' = p.
Proof. unfold notes. skip. Qed.

Lemma thumbnail_skip work p p' :
  absent_or (JObj []) "thumbnail" work -> thumbnail work p = Ok p' -> p' = p.
Proof. unfold thumbnail. skip. Qed.

Lemma items_skip work p p' :
  absent_or (JArr []) "items" work ->
  items work p = Ok p' -> p' = <["items_count" := JNum 0]> p.
Proof.
  unfold items. intros Hsrc H. apply bind_Ok in H as (v & Hv & H).
  apply (py_get_absent_or _ _ _ _ Hsrc) in Hv. subst v. simpl in H.
  by apply py_for_nil in H.
Qed.

Lemma count_of_skip src k work p p' :
  absent_or (JArr []) src work ->
  count_of src k work p = Ok p' -> p' = <[k := JNum 0]> p.
Proof. unfold count_of. skip. Qed.

Lemma related_skip src title id work p p' :
  absent_or (JArr []) src work -> related src title id work p = Ok p' -> p' = p.
Proof.
  intros Hsrc H. unfold related in H.
  apply bind_Ok in H as (present & Hin & H).
  apply bind_Ok in H as (nonempty & Hne & H).
  destruct present.
  - apply bind_Ok in Hne as (v & Hv & Hne).
    pose proof (py_in_getitem _ _ _ Hin Hv) as Hf.
    destruct Hsrc as [Hsrc|Hsrc]; rewrite Hsrc in Hf; [done|].
    injection Hf as <-. simpl in Hne. exec Hne. simpl in H. by exec H.
  - exec Hne. simpl in H. by exec H.
Qed.

Lemma lists_to_strings_empty so p r k :
  lists_to_strings so p = Ok r -> k ∈ joined_keys -> p !! k = Some (JArr []) ->
  r !! k = Some JNull.
Proof.
  intros Hr Hk Hp. unfold joined_keys in Hk.
  repeat (apply elem_of_cons in Hk as [->|Hk];
          [ first
              [ apply (joins_nil "; "); eapply lists_to_strings_lookup;
                [exact Hr|unfold joined_with; elem_here|exact Hp]
              | apply (joins_nil " | "); eapply lists_to_strings_lookup;
                [exact Hr|unfold joined_with; elem_here|exact Hp]
              | destruct (lists_to_strings_availability _ _ _ _ Hr Hp) as (ss & Hss & ->);
                simpl in Hss; injection Hss as <-; by rewrite set_list_nil ]
          | ]).
  by apply elem_of_nil in Hk.
Qed.

(** [skipped Hsrc] rewrites the block whose source [Hsrc] says is absent or
    empty. *)
Ltac skipped Hsrc :=
  match goal with
  | Hb : alternative_titles _ _ = Ok _ |- _ => apply (alternative_titles_skip _ _ _ Hsrc) in Hb
  | Hb : production_info _ _ = Ok _ |- _ => apply (production_info_skip _ _ _ Hsrc) in Hb
  | Hb : contributors _ _ = Ok _ |- _ => apply (contributors_skip _ _ _ Hsrc) in Hb
  | Hb : subjects _ _ = Ok _ |- _ => apply (subjects_skip _ _ _ Hsrc) in Hb
  | Hb : genres _ _ = Ok _ |- _ => apply (genres_skip _ _ _ Hsrc) in Hb
  | Hb : languages _ _ = Ok _ |- _ => apply (languages_skip _ _ _ Hsrc) in Hb
  | Hb : identifiers _ _ = Ok _ |- _ => apply (identifiers_skip _ _ _ Hsrc) in Hb
  | Hb : notes _ _ = Ok _ |- _ => apply (notes_skip _ _ _ Hsrc) in Hb
  | Hb : thumbnail _ _ = Ok _ |- _ => apply (thumbnail_skip _ _ _ Hsrc) in Hb
  | Hb : items _ _ = Ok _ |- _ => apply (items_skip _ _ _ Hsrc) in Hb
  | Hb : count_of _ _ _ _ = Ok _ |- _ => apply (count_of_skip _ _ _ _ _ Hsrc) in Hb
  | Hb : related _ _ _ _ _ = Ok _ |- _ => apply (related_skip _ _ _ _ _ _ Hsrc) in Hb
  end.

Lemma collect_defaults work p src e outs k d :
  collect_fields work = Ok p ->
  (src, e, outs) ∈ source_defaults -> absent_or e src work -> (k, d) ∈ outs ->
  p !! k = Some (if bool_decide (k ∈ joined_keys) then JArr [] else d).
Proof.
  intros H Hin Hsrc Hk. unfold collect_fields in H. exec H. unfold source_defaults in Hin.
  repeat (apply elem_of_cons in Hin as [Hin|Hin];
          [ injection Hin as -> -> ->;
            repeat (apply elem_of_cons in Hk as [Hk|Hk];
                    [injection Hk as -> ->; simpl|]);
            [ .. | by apply elem_of_nil in Hk ]
          | ]);
    [ .. | by apply elem_of_nil in Hin ].
  all: try (skipped Hsrc; subst; framed; chain; by first [initial | rewrite lookup_insert_eq]).
  all: framed; chain.
  all: try match goal with
       | Hi : initial_parsed _ = Ok _ |- _ !! ?k = _ =>
           rewrite (initial_parsed_copied _ _ k Hi) by (unfold copied_keys; elem_here);
           by destruct Hsrc as [-> | ->]
       end.
  all: match goal with
       | Hi : initial_parsed _ = Ok _ |- _ =>
           destruct (initial_parsed_workType _ _ Hi) as [G1 G2];
           rewrite ?G1, ?G2; by destruct Hsrc as [-> | ->]
       end.
Qed.

Lemma source_defaults_joined src e outs k d :
  (src, e, outs) ∈ source_defaults -> (k, d) ∈ outs -> k ∈ joined_keys -> d = JNull.
Proof.
  intros Hin Hk Hj. unfold source_defaults in Hin.
  repeat (apply elem_of_cons in Hin as [Hin|Hin];
          [ injection Hin as -> -> ->;
            repeat (apply elem_of_cons in Hk as [Hk|Hk];
                    [injection Hk as -> ->; try reflexivity|]);
            [ .. | by apply elem_of_nil in Hk ]
          | ]);
    [ .. | by apply elem_of_nil in Hin ].
  all: exfalso;
    match type of Hj with
    | ?k0 ∈ _ =>
        assert (k0 ∉ joined_keys) as Hn by (unfold joined_keys; notin); exact (Hn Hj)
    end.
Qed.

(** C3. Whatever fields the record has, the flat record returned for it
    has exactly the keys of the dictionary literal, and every field whose
    source is absent or empty (null for a value copied as it is, the empty
    list for a list, the empty dict for [workType] and [thumbnail]) holds its
    default: null, 0 for a count, false for [has_digitized_items]. *)
Theorem flat_record_keys_and_defaults so work r :
  extract_all_fields so work = Ok r ->
  dom r = list_to_set fixed_keys /\
  (forall src e outs,
     (src, e, outs) ∈ source_defaults -> absent_or e src work ->
     forall k d, (k, d) ∈ outs -> r !! k = Some d).
Proof.
  intros H. split; [by eapply extract_all_fields_dom|].
  intros src e outs Hin Hsrc k d Hk.
  apply extract_all_fields_Ok in H as (p & Hp & Hr).
  pose proof (collect_defaults _ _ _ _ _ _ _ Hp Hin Hsrc Hk) as Hpk.
  case_bool_decide as Hj.
  - rewrite (source_defaults_joined _ _ _ _ _ Hin Hk Hj).
    by eapply lists_to_strings_empty.
  - by rewrite (lists_to_strings_other _ _ _ _ Hr).
Qed.

Lemma flat_record_keys_and_defaults_witness :
  let r := result_of (extract_all_fields first_occurrence (JObj [])) in
  extract_all_fields first_occurrence (JObj []) = Ok r /\
  dom r = list_to_set fixed_keys /\
  r !! "title" = Some JNull /\
  r !! "subjects" = Some JNull /\
  r !! "items_count" = Some (JNum 0) /\
  r !! "has_digitized_items" = Some (JBool false).
Proof.
  intros r.
  assert (extract_all_fields first_occurrence (JObj []) = Ok r) as H by runs.
  split; [exact H|].
  destruct (flat_record_keys_and_defaults _ _ _ H) as [Hdom Hdef].
  split; [exact Hdom|].
  split_and!.
  - eapply (Hdef "title"); [unfold source_defaults; elem_here|by left|elem_here].
  - eapply (Hdef "subjects"); [unfold source_defaults; elem_here|by left|elem_here].
  - eapply (Hdef "items"); [unfold source_defaults; elem_here|by left|elem_here].
  - eapply (Hdef "items"); [unfold source_defaults; elem_here|by left|elem_here].
Defined.

(** ** The loaders *)

Lemma lines_read_cons_stop n i line f : (n <=? i)%Z = true -> lines_read (Some n) i (line :: f) = [].
Proof.
  intros H%Z.leb_le. unfold lines_read. by replace (Z.to_nat (n - i)) with 0 by lia.
Qed.

Lemma lines_read_cons_go n i line f :
  (n <=? i)%Z = false ->
  lines_read (Some n) i (line :: f) = line :: lines_read (Some n) (i + 1) f.
Proof.
  intros H%Z.leb_gt. unfold lines_read.
  by replace (Z.to_nat (n - i)) with (S (Z.to_nat (n - (i + 1)))) by lia.
Qed.

Lemma parse_lines_spec json_loads so n_samples f :
  forall i works,
    parse_lines json_loads so n_samples i f works
    = (rest ← mapM (extract_all_fields so) (omap json_loads (lines_read n_samples i f));
       Ok (works ++ rest)%list).
Proof.
  induction f as [|line f IH]; intros i works.
  - destruct n_samples as [n|]; simpl; [|by rewrite app_nil_r].
    unfold lines_read. rewrite take_nil. simpl. by rewrite app_nil_r.
  - assert (forall ls,
              ls = lines_read n_samples (i + 1) f ->
              (match json_loads line with
               | Some work =>
                   parsed ← extract_all_fields so work;
                   parse_lines json_loads so n_samples (i + 1) f (works ++ [parsed])
               | None => parse_lines json_loads so n_samples (i + 1) f works
               end)
              = (rest ← mapM (extract_all_fields so) (omap json_loads (line :: ls));
                 Ok (works ++ rest)%list)) as Hstep.
    { intros ls ->. simpl. destruct (json_loads line) as [work|]; [|apply IH].
      simpl. destruct (extract_all_fields so work) as [parsed|e]; simpl; [|done].
      rewrite IH. destruct (mapM _ _) as [rest|e]; simpl; [|done].
      by rewrite <- app_assoc. }
    destruct n_samples as [n|]; cbn [parse_lines].
    + destruct (n <=? i)%Z eqn:Hle.
      * rewrite lines_read_cons_stop by done. simpl. by rewrite app_nil_r.
      * rewrite lines_read_cons_go by done. by apply Hstep.
    + by apply Hstep.
Qed.

(** [load_wellcome_data] flattens the lines read that parse, in their
    order, and raises what the flattener first raises. *)
Lemma load_wellcome_data_spec json_loads so n_samples f :
  load_wellcome_data json_loads so n_samples f
  = mapM (extract_all_fields so) (omap json_loads (lines_read n_samples 0 f)).
Proof.
  unfold load_wellcome_data. rewrite parse_lines_spec.
  by destruct (mapM _ _).
Qed.

Lemma mapM_res_length {A B : Type} (g : A -> res B) l ys :
  mapM g l = Ok ys -> length ys = length l.
Proof.
  revert ys. induction l as [|x l IH]; intros ys H; simpl in H; exec H; [done|].
  simpl. f_equal. by apply IH.
Qed.

Lemma omap_all_parse (json_loads : string -> option json) f :
  Forall (fun line => is_Some (json_loads line)) f ->
  length (omap json_loads f) = length f.
Proof.
  induction 1 as [|line f [v Hv] _ IH]; [done|]. simpl. rewrite Hv. simpl. by f_equal.
Qed.

(** When every line parses, the number of records is the number of lines
    or the cap, whichever is smaller. *)
Lemma load_wellcome_data_all_parse json_loads so n_samples f works :
  Forall (fun line => is_Some (json_loads line)) f ->
  load_wellcome_data json_loads so n_samples f = Ok works ->
  length works
  = match n_samples with
    | Some n => Nat.min (Z.to_nat n) (length f)
    | None => length f
    end.
Proof.
  intros Hall H. rewrite load_wellcome_data_spec in H.
  apply mapM_res_length in H. rewrite H.
  destruct n_samples as [n|]; simpl; [|by apply omap_all_parse].
  rewrite Z.sub_0_r. rewrite omap_all_parse; [by rewrite length_take|].
  by apply Forall_take.
Qed.

Lemma mapM_res_singleton {A B : Type} (g : A -> res B) (x : A) :
  mapM g [x] = (y ← g x; Ok [y]).
Proof. simpl. by destruct (g x). Qed.

(** C1. The cap of [load_wellcome_data] is compared with the index of the
    line, so a line that fails to parse counts toward it: of the two lines
    [{] and [{}], one of which parses, a cap of 1 yields no record, where one
    record is there to load, as the call without a cap shows. *)
Theorem cap_counts_unparsed_lines so :
  omap loads_braces braces_stream = [JObj []] /\
  load_wellcome_data loads_braces so (Some 1%Z) braces_stream = Ok [] /\
  (exists r, load_wellcome_data loads_braces so None braces_stream = Ok [r]).
Proof.
  split_and!; [reflexivity|reflexivity|].
  rewrite load_wellcome_data_spec.
  change (omap loads_braces (lines_read None 0 braces_stream)) with [JObj []].
  rewrite mapM_res_singleton.
  assert (is_ok (extract_all_fields so (JObj [])) = true) as H by (vm_compute; reflexivity).
  destruct (extract_all_fields so (JObj [])) as [r|]; [|done]. by exists r.
Qed.

(** C5, as stated, fails on [load_data]: a line that does not parse makes
    it raise, and the record of the line that parses is not returned. *)
Lemma load_data_raises_on_unparsed_line :
  omap loads_braces braces_stream = [JObj []] /\
  (load_data loads_braces braces_files "works.json.gz").2 = Raise JSONDecodeError.
Proof. split; vm_compute; reflexivity. Qed.

Lemma read_lines_spec json_loads path f :
  forall data,
    (read_lines json_loads path f data).2
    = match mapM json_loads f with
      | Some rows => Ok (data ++ rows)%list
      | None => Raise JSONDecodeError
      end.
Proof.
  induction f as [|line f IH]; intros data; simpl; [by rewrite app_nil_r|].
  destruct (json_loads line) as [v|]; simpl; [|done].
  specialize (IH (data ++ [v])%list).
  destruct (read_lines json_loads path f (data ++ [v])) as [trace r]. simpl in *.
  rewrite IH. destruct (mapM json_loads f); simpl; [|done]. by rewrite <- app_assoc.
Qed.

Lemma omap_unparsed (json_loads : string -> option json) f1 bad f2 :
  json_loads bad = None ->
  omap json_loads (f1 ++ bad :: f2)%list = omap json_loads (f1 ++ f2)%list.
Proof. intros H. rewrite !omap_app. csimpl. by rewrite H. Qed.

(** C5, amended. In [load_wellcome_data], read without a cap, a line that
    does not parse is skipped and raises nothing: the loop goes on with the
    next line, the call gives what it gives for the file without that line,
    and the records are those of the lines that parse, flattened in file
    order. [load_data] skips nothing: it returns the rows of all lines when
    every line parses and raises [JSONDecodeError] otherwise. *)
Theorem unparsed_lines json_loads so f fs path :
  load_wellcome_data json_loads so None f
  = mapM (extract_all_fields so) (omap json_loads f) /\
  (forall f1 bad f2,
     f = (f1 ++ bad :: f2)%list -> json_loads bad = None ->
     load_wellcome_data json_loads so None f
     = load_wellcome_data json_loads so None (f1 ++ f2)%list) /\
  (fs !! path = Some (GzipText f) ->
   (load_data json_loads fs path).2
   = match mapM json_loads f with
     | Some rows => Ok rows
     | None => Raise JSONDecodeError
     end).
Proof.
  split_and!.
  - apply load_wellcome_data_spec.
  - intros f1 bad f2 -> Hbad. rewrite !load_wellcome_data_spec.
    change (lines_read None 0 ?l) with l. by rewrite omap_unparsed.
  - intros Hf. unfold load_data. rewrite Hf.
    pose proof (read_lines_spec json_loads path f []) as H.
    destruct (read_lines json_loads path f []) as [trace r]. simpl in *. by rewrite H.
Qed.

Lemma unparsed_lines_witness :
  braces_stream = ([] ++ "{" :: ["{}"])%list /\
  loads_braces "{" = None /\
  braces_files !! "works.json.gz" = Some (GzipText braces_stream) /\
  load_wellcome_data loads_braces first_occurrence None braces_stream
  = load_wellcome_data loads_braces first_occurrence None ["{}"] /\
  load_wellcome_data loads_braces first_occurrence None braces_stream
  = mapM (extract_all_fields first_occurrence) [JObj []] /\
  (load_data loads_braces braces_files "works.json.gz").2 = Raise JSONDecodeError.
Proof.
  assert (braces_files !! "works.json.gz" = Some (GzipText braces_stream)) as H
    by (vm_compute; reflexivity).
  destruct (unparsed_lines loads_braces first_occurrence braces_stream
              braces_files "works.json.gz") as (G1 & G2 & G3).
  split; [reflexivity|]. split; [reflexivity|]. split; [exact H|].
  split; [exact (G2 [] "{" ["{}"] eq_refl eq_refl)|]. split; [exact G1|exact (G3 H)].
Defined.

(** C6. For a path that does not exist [load_data] raises
    [FileNotFoundError] after the test of existence alone: the file is
    neither opened nor read. For a path that exists it does not raise this
    error. *)
Theorem load_data_not_found json_loads fs path :
  (fs !! path = None ->
   load_data json_loads fs path = ([PathExists path], Raise FileNotFoundError)) /\
  (is_Some (fs !! path) ->
   (load_data json_loads fs path).2 <> Raise FileNotFoundError).
Proof.
  split.
  - intros H. unfold load_data. by rewrite H.
  - intros [node H]. unfold load_data. rewrite H. destruct node as [|f|]; simpl; try done.
    pose proof (read_lines_spec json_loads path f []) as Hr.
    destruct (read_lines json_loads path f []) as [trace r]. simpl in *. rewrite Hr.
    by destruct (mapM json_loads f).
Qed.

Lemma load_data_not_found_witness :
  braces_files !! "missing.json.gz" = None /\
  load_data loads_braces braces_files "missing.json.gz"
  = ([PathExists "missing.json.gz"], Raise FileNotFoundError) /\
  is_Some (braces_files !! "works.json.gz") /\
  (load_data loads_braces braces_files "works.json.gz").2 <> Raise FileNotFoundError.
Proof.
  assert (braces_files !! "missing.json.gz" = None) as H1 by (vm_compute; reflexivity).
  assert (is_Some (braces_files !! "works.json.gz")) as H2
    by (eexists; vm_compute; reflexivity).
  split_and!; [exact H1| |exact H2|].
  - exact (proj1 (load_data_not_found loads_braces braces_files "missing.json.gz") H1).
  - exact (proj2 (load_data_not_found loads_braces braces_files "works.json.gz") H2).
Defined.

(** * Further properties of the code *)

(** ** Notes *)

Lemma note_content_lookup content p p' l :
  note_content content p = Ok p' -> p !! "notes" = Some (JArr l) ->
  p' !! "notes" = Some (JArr (l ++ (if is_str content then [content] else []))).
Proof.
  intros H Hl. unfold note_content in H. destruct (is_str content).
  - by eapply list_append_lookup.
  - exec H. by rewrite app_nil_r.
Qed.

Lemma flat_map_is_str l :
  flat_map (fun x => if is_str x then [x] else []) l = filter (fun x => is_str x = true) l.
Proof.
  induction l as [|x l IH]; [done|]. simpl. rewrite IH.
  destruct (is_str x) eqn:Hx; simpl.
  - by rewrite filter_cons_True.
  - rewrite filter_cons_False; [done|]. by rewrite Hx.
Qed.

Lemma note_types_lookup n p p' l :
  note n p = Ok p' -> p !! "note_types" = Some (JArr l) ->
  p' !! "note_types" = Some (JArr (l ++ note_type_entry n)).
Proof.
  intros H Hl. unfold note in H.
  apply bind_Ok in H as (nt & Hnt & H). destruct (py_get_JObj _ _ _ _ Hnt) as [kv ->].
  apply py_get_field in Hnt as ->.
  apply bind_Ok in H as (t & Ht & H). apply py_get_field in Ht as ->.
  apply bind_Ok in H as (p1 & H1 & H). apply bind_Ok in H as (contents & _ & H).
  pose proof (list_append_lookup _ _ _ _ _ H1 Hl) as G.
  apply frame in H as [H _]. rewrite H by notin. done.
Qed.

Lemma note_strings_lookup n p p' l :
  note n p = Ok p' -> p !! "notes" = Some (JArr l) ->
  p' !! "notes" = Some (JArr (l ++ note_strings n)).
Proof.
  intros H Hl. unfold note in H.
  apply bind_Ok in H as (nt & Hnt & H). destruct (py_get_JObj _ _ _ _ Hnt) as [kv ->].
  apply bind_Ok in H as (t & Ht & H).
  apply bind_Ok in H as (p1 & H1 & H). apply bind_Ok in H as (contents & Hc & H).
  apply py_get_field in Hc as ->.
  assert (p1 !! "notes" = Some (JArr l)) as Hl1.
  { apply frame in H1 as [H1 _]. by rewrite H1 by notin. }
  unfold py_for in H. apply bind_Ok in H as (items & Hitems & H).
  unfold note_strings, iterated. rewrite Hitems. rewrite <- flat_map_is_str.
  eapply (for_each_appends "notes" (fun x => if is_str x then [x] else []));
    [apply note_content_lookup|exact H|exact Hl1].
Qed.

Lemma collect_notes work p :
  collect_fields work = Ok p ->
  let l := elements (field "notes" work) in
  p !! "note_types" = Some (JArr (flat_map note_type_entry l)) /\
  p !! "notes" = Some (JArr (flat_map note_strings l)).
Proof.
  intros H l. subst l. unfold collect_fields in H. exec H.
  match goal with
  | Hb : notes _ _ = Ok _ |- _ =>
      pose proof (fun l => source_appends _ "note_types" note_type_entry _ _ _ _ l
                             note_types_lookup (fun _ => eq_refl) Hb) as Ht;
      pose proof (fun l => source_appends _ "notes" note_strings _ _ _ _ l
                             note_strings_lookup (fun _ => eq_refl) Hb) as Hn
  end.
  framed. split; [at_block Ht | at_block Hn].
Qed.

(** X1. Every note adds its type label, or ['general'] when it has none, to
    [note_types], joined with ["; "], and the strings among its contents, and
    only them, to [notes], joined with [" | "]; notes come in the order of
    the record, and a record without notes has both fields null. *)
Theorem notes_fields so work r :
  extract_all_fields so work = Ok r ->
  let l := elements (field "notes" work) in
  joins (flat_map note_type_entry l) "; " (r !! "note_types") /\
  joins (flat_map note_strings l) " | " (r !! "notes") /\
  (l = [] -> r !! "note_types" = Some JNull /\ r !! "notes" = Some JNull).
Proof.
  intros H l.
  assert (joins (flat_map note_type_entry l) "; " (r !! "note_types") /\
          joins (flat_map note_strings l) " | " (r !! "notes")) as [G1 G2].
  { split; (eapply extract_joins; [done|unfold joined_with; elem_here|]);
      intros p Hp; by apply collect_notes in Hp as [? ?]. }
  split_and!; [done|done|]. intros Hnil. rewrite Hnil in G1, G2.
  split; by eapply joins_nil.
Qed.

Lemma notes_fields_witness :
  let r := result_of (extract_all_fields first_occurrence notes_example) in
  extract_all_fields first_occurrence notes_example = Ok r /\
  r !! "note_types" = Some (JStr "Summary; general") /\
  r !! "notes" = Some (JStr "a | b | c").
Proof.
  intros r.
  assert (extract_all_fields first_occurrence notes_example = Ok r) as H by runs.
  split; [exact H|].
  destruct (notes_fields _ _ _ H) as ((s1 & E1 & Hr1) & (s2 & E2 & Hr2) & _).
  vm_compute in E1, E2. injection E1 as <-. injection E2 as <-.
  split; [exact Hr1 | exact Hr2].
Defined.

(** ** Fields copied from the record *)

Lemma thumbnail_lookup work p p' :
  thumbnail work p = Ok p' -> p !! "thumbnail_url" = Some JNull ->
  p' !! "thumbnail_url" = Some (thumbnail_url_of work).
Proof.
  intros H Hp. unfold thumbnail in H. unfold thumbnail_url_of.
  apply bind_Ok in H as (th & Hth & H). apply py_get_field in Hth as <-.
  destruct (truthy th); exec H; [|done].
  match goal with Hu : py_get _ "url" _ = Ok _ |- _ => apply py_get_field in Hu as -> end.
  apply lookup_insert_eq.
Qed.

(** X2. The fields [id], [title], [description], [physicalDescription],
    [lettering], [edition] and [referenceNumber] hold the value the record has
    under the same key, whatever its type, or null; [workType] and
    [workType_id] hold the label and the id of the work type, and
    [thumbnail_url] the url of a non-empty thumbnail, or null. *)
Theorem copied_fields so work r :
  extract_all_fields so work = Ok r ->
  (forall k, k ∈ copied_keys -> r !! k = Some (default JNull (field k work))) /\
  r !! "workType"
  = Some (default JNull (field "label" (default (JObj []) (field "workType" work)))) /\
  r !! "workType_id"
  = Some (default JNull (field "id" (default (JObj []) (field "workType" work)))) /\
  r !! "thumbnail_url" = Some (thumbnail_url_of work).
Proof.
  intros (p & Hp & Hr)%extract_all_fields_Ok.
  unfold collect_fields in Hp. exec Hp.
  match goal with
  | Hi : initial_parsed _ = Ok _ |- _ =>
      pose proof (fun k => initial_parsed_copied _ _ k Hi) as Hc;
      pose proof (initial_parsed_workType _ _ Hi) as [Hw1 Hw2]
  end.
  match goal with
  | Hb : thumbnail _ _ = Ok _ |- _ => pose proof (thumbnail_lookup _ _ _ Hb) as Ht
  end.
  split_and!.
  - intros k Hk. rewrite <- (Hc k Hk). unfold copied_keys in Hk.
    repeat (apply elem_of_cons in Hk as [->|Hk];
            [rewrite (lists_to_strings_other _ _ _ _ Hr) by (unfold joined_keys; notin);
             framed; by chain|]).
    by apply elem_of_nil in Hk.
  - rewrite (lists_to_strings_other _ _ _ _ Hr) by (unfold joined_keys; notin).
    rewrite <- Hw1. framed. by chain.
  - rewrite (lists_to_strings_other _ _ _ _ Hr) by (unfold joined_keys; notin).
    rewrite <- Hw2. framed. by chain.
  - rewrite (lists_to_strings_other _ _ _ _ Hr) by (unfold joined_keys; notin).
    framed. chain. apply Ht. chain. initial.
Qed.

Lemma copied_fields_witness :
  let r := result_of (extract_all_fields first_occurrence work_example) in
  extract_all_fields first_occurrence work_example = Ok r /\
  r !! "title" = Some (JStr "Atlas") /\
  r !! "edition" = Some JNull /\
  r !! "workType" = Some (JStr "Books") /\
  r !! "workType_id" = Some (JStr "a") /\
  r !! "thumbnail_url" = Some (JStr "http://t").
Proof.
  intros r.
  assert (extract_all_fields first_occurrence work_example = Ok r) as H by runs.
  split; [exact H|].
  destruct (copied_fields _ _ _ H) as (G1 & G2 & G3 & G4).
  split_and!; [| |exact G2|exact G3|exact G4].
  - apply (G1 "title"). unfold copied_keys. elem_here.
  - apply (G1 "edition"). unfold copied_keys. elem_here.
Defined.

(** ** Alternative titles *)

Lemma alternative_titles_lookup work p p' :
  alternative_titles work p = Ok p' ->
  field "alternativeTitles" work = None \/
  (exists l, field "alternativeTitles" work = Some (JArr l)) ->
  p !! "alternativeTitles" = Some JNull ->
  joins (elements (field "alternativeTitles" work)) "; " (p' !! "alternativeTitles").
Proof.
  intros H Hl Hp. unfold alternative_titles in H.
  apply bind_Ok in H as (alt & Halt & H). apply py_get_field in Halt.
  assert (alt = JArr (elements (field "alternativeTitles" work))) as ->.
  { destruct Hl as [Hl|[l Hl]]; rewrite Hl in Halt |- *; by subst. }
  destruct (elements (field "alternativeTitles" work)) as [|x l]; simpl in H.
  - exec H. by exists [].
  - apply bind_Ok in H as (s & Hs & H). exec H.
    apply py_join_JArr in Hs as (ss & Hss & ->).
    exists ss. split; [done|]. rewrite lookup_insert_eq.
    by destruct (all_str_cons _ _ _ Hss) as (s & ss' & -> & -> & _).
Qed.

(** X3. When the record has a list of alternative titles, or none,
    [alternativeTitles] is these titles joined with ["; "], in their order,
    and null when there is no title. *)
Theorem alternative_titles_field so work r :
  extract_all_fields so work = Ok r ->
  field "alternativeTitles" work = None \/
  (exists l, field "alternativeTitles" work = Some (JArr l)) ->
  joins (elements (field "alternativeTitles" work)) "; " (r !! "alternativeTitles").
Proof.
  intros (p & Hp & Hr)%extract_all_fields_Ok Hl.
  rewrite (lists_to_strings_other _ _ _ _ Hr) by (unfold joined_keys; notin).
  unfold collect_fields in Hp. exec Hp.
  match goal with
  | Hb : alternative_titles _ ?pa = Ok _ |- _ =>
      assert (pa !! "alternativeTitles" = Some JNull) as Hpa by (framed; chain; initial);
      pose proof (alternative_titles_lookup _ _ _ Hb Hl Hpa) as (ss & Hss & G)
  end.
  exists ss. split; [done|]. rewrite <- G. framed. by chain.
Qed.

Lemma alternative_titles_field_witness :
  let r := result_of (extract_all_fields first_occurrence work_example) in
  extract_all_fields first_occurrence work_example = Ok r /\
  r !! "alternativeTitles" = Some (JStr "One; Two").
Proof.
  intros r.
  assert (extract_all_fields first_occurrence work_example = Ok r) as H by runs.
  split; [exact H|].
  destruct (alternative_titles_field _ _ _ H) as (s & E & Hr).
  - right. by exists [JStr "One"; JStr "Two"].
  - vm_compute in E. injection E as <-. exact Hr.
Defined.

(** ** Counts and relations *)

Lemma count_of_lookup src k work p p' :
  count_of src k work p = Ok p' ->
  field src work = None \/ (exists l, field src work = Some (JArr l)) ->
  p' !! k = Some (JNum (Z.of_nat (length (elements (field src work))))).
Proof.
  intros H Hl. unfold count_of in H.
  apply bind_Ok in H as (v & Hv & H). apply py_get_field in Hv.
  apply bind_Ok in H as (n & Hn & H).
  assert (n = JNum (Z.of_nat (length (elements (field src work))))) as ->.
  { destruct Hl as [Hl|[l Hl]]; rewrite Hl in Hv |- *; subst v; simpl in Hn;
      by injection Hn as <-. }
  apply (inj Ok) in H as <-. apply lookup_insert_eq.
Qed.

(** X4. [holdings_count], [parts_count] and [images_count] are the lengths
    of the lists [holdings], [parts] and [images] of the record, and 0 for a
    record without the key. *)
Theorem count_fields_lengths so work r src k :
  extract_all_fields so work = Ok r ->
  (src, k) ∈ count_fields ->
  field src work = None \/ (exists l, field src work = Some (JArr l)) ->
  r !! k = Some (JNum (Z.of_nat (length (elements (field src work))))).
Proof.
  intros (p & Hp & Hr)%extract_all_fields_Ok Hin Hl.
  unfold collect_fields in Hp. exec Hp. unfold count_fields in Hin.
  repeat (apply elem_of_cons in Hin as [Hin|Hin];
          [ injection Hin as -> ->;
            rewrite (lists_to_strings_other _ _ _ _ Hr) by (unfold joined_keys; notin);
            match goal with
            | Hb : count_of ?s ?c _ _ = Ok _
              |- _ !! ?c = Some (JNum (Z.of_nat (length (elements (field ?s _))))) =>
                rewrite <- (count_of_lookup _ _ _ _ _ Hb Hl)
            end;
            framed; by chain
          | ]).
  by apply elem_of_nil in Hin.
Qed.

Lemma count_fields_lengths_witness :
  let r := result_of (extract_all_fields first_occurrence work_example) in
  extract_all_fields first_occurrence work_example = Ok r /\
  r !! "holdings_count" = Some (JNum 2) /\
  r !! "parts_count" = Some (JNum 0).
Proof.
  intros r.
  assert (extract_all_fields first_occurrence work_example = Ok r) as H by runs.
  split; [exact H|]. split.
  - apply (count_fields_lengths _ _ _ "holdings" "holdings_count" H).
    + unfold count_fields. elem_here.
    + right. by exists [JObj []; JObj []].
  - apply (count_fields_lengths _ _ _ "parts" "parts_count" H).
    + unfold count_fields. elem_here.
    + by left.
Defined.

Lemma related_lookup src title id work p p' x rest :
  title <> id ->
  related src title id work p = Ok p' ->
  field src work = Some (JArr (x :: rest)) ->
  p' !! title = Some (default JNull (field "title" x)) /\
  p' !! id = Some (default JNull (field "id" x)).
Proof.
  intros Hne H Hf. unfold related in H.
  apply bind_Ok in H as (present & Hin & H).
  apply bind_Ok in H as (nonempty & Hnonempty & H).
  assert (py_getitem work src = Ok (JArr (x :: rest))) as Hget.
  { destruct work; try done. simpl in Hf |- *. by rewrite Hf. }
  assert (present = true) as ->.
  { destruct work; try done. simpl in Hf, Hin. rewrite Hf in Hin. by exec Hin. }
  rewrite Hget in Hnonempty. simpl in Hnonempty. exec Hnonempty.
  rewrite Hget in H. simpl in H.
  apply bind_Ok in H as (t & Ht & H). apply py_get_field in Ht as ->.
  apply bind_Ok in H as (i & Hi & H). apply py_get_field in Hi as ->.
  exec H. split; [|apply lookup_insert_eq].
  rewrite lookup_insert_ne by done. apply lookup_insert_eq.
Qed.

(** X5. Of a non-empty list [partOf], [precededBy] or [succeededBy] only
    the first work counts: the title field and the id field hold its title
    and its id, or null where it has none, whatever works follow it. *)
Theorem related_first_only so work r src title id x rest :
  extract_all_fields so work = Ok r ->
  (src, title, id) ∈ related_fields ->
  field src work = Some (JArr (x :: rest)) ->
  r !! title = Some (default JNull (field "title" x)) /\
  r !! id = Some (default JNull (field "id" x)).
Proof.
  intros (p & Hp & Hr)%extract_all_fields_Ok Hin Hf.
  unfold collect_fields in Hp. exec Hp. unfold related_fields in Hin.
  repeat (apply elem_of_cons in Hin as [Hin|Hin];
          [ injection Hin as -> -> ->;
            rewrite (lists_to_strings_other _ _ _ _ Hr) by (unfold joined_keys; notin);
            rewrite (lists_to_strings_other _ _ _ _ Hr) by (unfold joined_keys; notin);
            match goal with
            | Hb : related ?s ?t ?i _ _ = Ok _ |- _ !! ?t = _ /\ _ =>
                destruct (related_lookup s t i _ _ _ _ _ ltac:(done) Hb Hf) as [G1 G2];
                rewrite <- G1, <- G2
            end;
            framed; split; by chain
          | ]).
  by apply elem_of_nil in Hin.
Qed.

Lemma related_first_only_witness :
  let r := result_of (extract_all_fields first_occurrence work_example) in
  extract_all_fields first_occurrence work_example = Ok r /\
  r !! "partOf_title" = Some (JStr "Series") /\
  r !! "partOf_id" = Some (JStr "p1").
Proof.
  intros r.
  assert (extract_all_fields first_occurrence work_example = Ok r) as H by runs.
  split; [exact H|].
  apply (related_first_only _ _ _ "partOf" "partOf_title" "partOf_id"
           (JObj [("title", JStr "Series"); ("id", JStr "p1")])
           [JObj [("title", JStr "Other")]] H).
  - unfold related_fields. elem_here.
  - reflexivity.
Defined.

(** ** Values of the wrong type *)

Lemma source_loop_raises src body work p p' v :
  field src work = Some v -> scalar v = true ->
  (x ← py_get work src (JArr []); py_for x body p) = Ok p' -> False.
Proof.
  intros Hf Hs H. apply bind_Ok in H as (x & Hx & H). apply py_get_field in Hx.
  rewrite Hf in Hx. simpl in Hx. subst x. unfold py_for in H. by destruct v.
Qed.

Lemma source_len_raises src work v n :
  field src work = Some v -> scalar v = true ->
  (x ← py_get work src (JArr []); py_len x) = Ok n -> False.
Proof.
  intros Hf Hs H. apply bind_Ok in H as (x & Hx & H). apply py_get_field in Hx.
  rewrite Hf in Hx. simpl in Hx. subst x. by destruct v.
Qed.

Lemma items_raises work p p' v :
  field "items" work = Some v -> scalar v = true -> items work p = Ok p' -> False.
Proof.
  intros Hf Hs H. unfold items in H. apply bind_Ok in H as (x & Hx & H).
  apply bind_Ok in H as (n & Hn & _). eapply (source_len_raises "items"); [done..|].
  rewrite Hx. exact Hn.
Qed.

Lemma count_of_raises src k work p p' v :
  field src work = Some v -> scalar v = true -> count_of src k work p = Ok p' -> False.
Proof.
  intros Hf Hs H. unfold count_of in H. apply bind_Ok in H as (x & Hx & H).
  apply bind_Ok in H as (n & Hn & _). eapply (source_len_raises src); [done..|].
  rewrite Hx. exact Hn.
Qed.

Lemma initial_parsed_raises work p v :
  field "workType" work = Some v -> scalar v = true -> initial_parsed work = Ok p -> False.
Proof.
  intros Hf Hs H. unfold initial_parsed in H.
  apply bind_Ok in H as (v_id & _ & H). apply bind_Ok in H as (v_title & _ & H).
  apply bind_Ok in H as (wt & Hwt & H). apply bind_Ok in H as (label & Hlabel & _).
  apply py_get_field in Hwt. rewrite Hf in Hwt. simpl in Hwt. subst wt. by destruct v.
Qed.

(** X6. A null, a boolean or a number under [workType] or under the key of
    a list that is iterated or measured without a test ([contributors],
    [subjects], [genres], [languages], [identifiers], [notes], [items],
    [holdings], [parts], [images]) makes the flattener raise: no flat record
    is returned. *)
Theorem unguarded_source_raises so work src v :
  src ∈ unguarded_sources -> field src work = Some v -> scalar v = true ->
  is_ok (extract_all_fields so work) = false.
Proof.
  intros Hin Hf Hs. destruct (extract_all_fields so work) as [r|] eqn:H; [|done].
  exfalso. apply extract_all_fields_Ok in H as (p & Hp & _).
  unfold collect_fields in Hp. exec Hp. unfold unguarded_sources in Hin.
  repeat (apply elem_of_cons in Hin as [->|Hin];
          [ match goal with
            | Hb : initial_parsed _ = Ok _ |- _ =>
                exact (initial_parsed_raises _ _ _ Hf Hs Hb)
            | Hb : items _ _ = Ok _ |- _ => exact (items_raises _ _ _ _ Hf Hs Hb)
            | Hb : count_of _ _ _ _ = Ok _ |- _ =>
                exact (count_of_raises _ _ _ _ _ _ Hf Hs Hb)
            | Hb : _ _ _ = Ok _ |- _ => exact (source_loop_raises _ _ _ _ _ _ Hf Hs Hb)
            end
          | ]).
  by apply elem_of_nil in Hin.
Qed.

Lemma unguarded_source_raises_witness :
  is_ok (extract_all_fields first_occurrence (JObj [("subjects", JNull)])) = false.
Proof.
  apply (unguarded_source_raises _ _ "subjects" JNull).
  - unfold unguarded_sources. elem_here.
  - reflexivity.
  - reflexivity.
Defined.








(** ** More on the loaders *)

Lemma mapM_res_app {A B : Type} (g : A -> res B) (l1 l2 : list A) :
  mapM g (l1 ++ l2)%list = (ys1 ← mapM g l1; ys2 ← mapM g l2; Ok (ys1 ++ ys2)%list).
Proof.
  induction l1 as [|x l1 IH]; simpl.
  - by destruct (mapM g l2).
  - destruct (g x) as [y|e]; simpl; [|done]. rewrite IH.
    destruct (mapM g l1) as [ys1|e]; simpl; [|done].
    by destruct (mapM g l2).
Qed.

Lemma omap_app_lines (json_loads : string -> option json) (f1 f2 : list string) :
  omap json_loads (f1 ++ f2)%list = (omap json_loads f1 ++ omap json_loads f2)%list.
Proof.
  apply omap_app.
Qed.

Lemma extract_all_fields_not_dict so work :
  (forall kv, work <> JObj kv) -> extract_all_fields so work = Raise AttributeError.
Proof. intros H. destruct work; try reflexivity. by destruct (H kv). Qed.

(** X8. A cap [n_samples] gives what the first [n_samples] lines of the
    file give without a cap; a cap that is zero or negative gives no
    record. *)
Theorem cap_is_prefix json_loads so n f :
  load_wellcome_data json_loads so (Some n) f
  = load_wellcome_data json_loads so None (take (Z.to_nat n) f) /\
  ((n <= 0)%Z -> load_wellcome_data json_loads so (Some n) f = Ok []).
Proof.
  rewrite !load_wellcome_data_spec. unfold lines_read. rewrite Z.sub_0_r.
  split; [done|]. intros Hn. by replace (Z.to_nat n) with 0 by lia.
Qed.

Lemma cap_is_prefix_witness :
  (0 <= 0)%Z /\
  load_wellcome_data loads_braces first_occurrence (Some 0%Z) braces_stream = Ok [].
Proof.
  assert (0 <= 0)%Z as H by lia. split; [exact H|].
  exact (proj2 (cap_is_prefix loads_braces first_occurrence 0 braces_stream) H).
Defined.

(** X9. When [load_wellcome_data] returns, it returns one record for each
    line read that parses: their number is at most the number of lines of the
    file, and at most the cap; when every line of the file parses, it is the
    number of lines, or the cap when that is smaller. *)
Theorem records_count json_loads so n_samples f works :
  load_wellcome_data json_loads so n_samples f = Ok works ->
  length works = length (omap json_loads (lines_read n_samples 0 f)) /\
  length works <= length f /\
  (forall n, n_samples = Some n -> length works <= Z.to_nat n) /\
  (Forall (fun line => is_Some (json_loads line)) f ->
   length works = match n_samples with
                  | Some n => Nat.min (Z.to_nat n) (length f)
                  | None => length f
                  end).
Proof.
  intros H0. pose proof H0 as H.
  rewrite load_wellcome_data_spec in H. apply mapM_res_length in H.
  assert (forall l : list string, length (omap json_loads l) <= length l) as Hle.
  { induction l as [|line l IH]; [done|]. csimpl.
    destruct (json_loads line); csimpl; lia. }
  split; [done|]. rewrite H. split_and!.
  - etrans; [apply Hle|]. unfold lines_read. destruct n_samples; [|done].
    rewrite length_take. lia.
  - intros n ->. etrans; [apply Hle|]. unfold lines_read. rewrite length_take. lia.
  - intros Hall. rewrite <- H. by eapply load_wellcome_data_all_parse.
Qed.

Lemma load_capped_example :
  load_wellcome_data loads_braces first_occurrence (Some 1%Z) ["{}"; "{}"]
  = Ok [empty_record].
Proof.
  rewrite load_wellcome_data_spec.
  change (omap loads_braces (lines_read (Some 1%Z) 0 ["{}"; "{}"])) with [JObj []].
  rewrite mapM_res_singleton.
  assert (extract_all_fields first_occurrence (JObj []) = Ok empty_record) as -> by runs.
  reflexivity.
Qed.

Lemma records_count_witness :
  let f := ["{}"; "{}"] in
  load_wellcome_data loads_braces first_occurrence (Some 1%Z) f = Ok [empty_record] /\
  Forall (fun line => is_Some (loads_braces line)) f /\
  length [empty_record] = Nat.min (Z.to_nat 1) (length f) /\
  length [empty_record] <= Z.to_nat 1.
Proof.
  intros f. pose proof load_capped_example as H. fold f in H. split; [exact H|].
  assert (Forall (fun line => is_Some (loads_braces line)) f) as Hall
    by (repeat constructor; by eexists).
  split; [exact Hall|].
  destruct (records_count _ _ _ _ _ H) as (_ & _ & G1 & G2).
  split; [exact (G2 Hall)|exact (G1 1%Z eq_refl)].
Defined.

(** X10. A line that parses to a JSON value that is not an object, read
    after lines that load, is not skipped: the flattener raises
    [AttributeError] on it, the loop does not catch it, and no record is
    returned. *)
Theorem non_dict_line_aborts json_loads so n_samples f1 line f2 work works :
  mapM (extract_all_fields so) (omap json_loads f1) = Ok works ->
  json_loads line = Some work -> (forall kv, work <> JObj kv) ->
  (forall n, n_samples = Some n -> (Z.of_nat (length f1) < n)%Z) ->
  load_wellcome_data json_loads so n_samples (f1 ++ line :: f2)%list = Raise AttributeError.
Proof.
  intros H1 Hline Hwork Hcap. rewrite load_wellcome_data_spec.
  assert (exists f2', lines_read n_samples 0 (f1 ++ line :: f2)%list = (f1 ++ line :: f2')%list)
    as [f2' ->].
  { unfold lines_read. destruct n_samples as [n|]; [|by eexists].
    specialize (Hcap n eq_refl). rewrite Z.sub_0_r.
    rewrite take_app_ge by lia.
    replace (Z.to_nat n - length f1) with (S (Z.to_nat n - length f1 - 1)) by lia.
    by eexists. }
  rewrite omap_app_lines, mapM_res_app, H1. simpl. rewrite Hline. simpl.
  by rewrite (extract_all_fields_not_dict _ _ Hwork).
Qed.

Lemma load_example_line :
  mapM (extract_all_fields first_occurrence) (omap loads_example ["{}"]) = Ok [empty_record].
Proof.
  change (omap loads_example ["{}"]) with [JObj []].
  rewrite mapM_res_singleton.
  assert (extract_all_fields first_occurrence (JObj []) = Ok empty_record) as -> by runs.
  reflexivity.
Qed.

Lemma non_dict_line_aborts_witness :
  mapM (extract_all_fields first_occurrence) (omap loads_example ["{}"]) = Ok [empty_record] /\
  loads_example "[]" = Some (JArr []) /\
  load_wellcome_data loads_example first_occurrence None ["{}"; "[]"; "{}"]
  = Raise AttributeError.
Proof.
  pose proof load_example_line as H. split; [exact H|]. split; [reflexivity|].
  apply (non_dict_line_aborts loads_example first_occurrence None ["{}"] "[]" ["{}"]
           (JArr []) [empty_record] H).
  - reflexivity.
  - intros kv. discriminate.
  - intros n. discriminate.
Defined.

(** X11. Without a cap, the records of a file made of two parts are the
    records of the first part followed by those of the second. *)
Theorem load_wellcome_data_app json_loads so f1 f2 :
  load_wellcome_data json_loads so None (f1 ++ f2)%list
  = (works1 ← load_wellcome_data json_loads so None f1;
     works2 ← load_wellcome_data json_loads so None f2;
     Ok (works1 ++ works2)%list).
Proof.
  rewrite !load_wellcome_data_spec. unfold lines_read.
  by rewrite omap_app_lines, mapM_res_app.
Qed.

Lemma mapM_Some_omap (json_loads : string -> option json) f rows :
  mapM json_loads f = Some rows -> omap json_loads f = rows.
Proof.
  revert rows. induction f as [|line f IH]; intros rows H; csimpl in *; [by injection H|].
  destruct (json_loads line) as [v|]; csimpl in *; [|done].
  destruct (mapM json_loads f) as [rows'|]; csimpl in *; [|done].
  injection H as <-. f_equal. by apply IH.
Qed.

(** X12. The two loaders read the same rows: when [load_data] returns the
    rows of a file, [load_wellcome_data] without a cap returns these rows
    flattened, in the same order, or raises what the flattener raises first
    on them. *)
Theorem loaders_agree json_loads so fs path f rows :
  fs !! path = Some (GzipText f) ->
  (load_data json_loads fs path).2 = Ok rows ->
  load_wellcome_data json_loads so None f = mapM (extract_all_fields so) rows.
Proof.
  intros Hf H. unfold load_data in H. rewrite Hf in H.
  pose proof (read_lines_spec json_loads path f []) as Hr.
  destruct (read_lines json_loads path f []) as [trace r]. simpl in *. rewrite Hr in H.
  destruct (mapM json_loads f) as [rows'|] eqn:Hrows; [|done]. injection H as <-.
  rewrite load_wellcome_data_spec. unfold lines_read. by rewrite (mapM_Some_omap _ _ _ Hrows).
Qed.

Lemma loaders_agree_witness :
  parsed_files !! "works.json.gz" = Some (GzipText ["{}"; "[]"]) /\
  (load_data loads_example parsed_files "works.json.gz").2 = Ok [JObj []; JArr []] /\
  load_wellcome_data loads_example first_occurrence None ["{}"; "[]"]
  = mapM (extract_all_fields first_occurrence) [JObj []; JArr []].
Proof.
  assert (parsed_files !! "works.json.gz" = Some (GzipText ["{}"; "[]"])) as H1
    by (vm_compute; reflexivity).
  assert ((load_data loads_example parsed_files "works.json.gz").2 = Ok [JObj []; JArr []])
    as H2 by (vm_compute; reflexivity).
  split; [exact H1|]. split; [exact H2|].
  exact (loaders_agree loads_example first_occurrence parsed_files "works.json.gz"
           ["{}"; "[]"] [JObj []; JArr []] H1 H2).
Defined.

Lemma read_lines_trace json_loads path f :
  forall data,
    exists good rest,
      f = (good ++ rest)%list /\ Forall (fun line => is_Some (json_loads line)) good /\
      match rest with
      | [] =>
          (read_lines json_loads path f data).1 = replicate (length f) (ReadLine path)
      | bad :: _ =>
          json_loads bad = None /\
          read_lines json_loads path f data
          = (replicate (S (length good)) (ReadLine path), Raise JSONDecodeError)
      end.
Proof.
  induction f as [|line f IH]; intros data.
  - exists [], []. by split_and!.
  - simpl. destruct (json_loads line) as [v|] eqn:Hline.
    + destruct (IH (data ++ [v])%list) as (good & rest & -> & Hgood & Hrest).
      exists (line :: good), rest. split_and!; [done|by constructor; eauto|].
      destruct (read_lines json_loads path (good ++ rest)%list (data ++ [v])) as [trace r].
      destruct rest as [|bad rest]; simpl in *.
      * by rewrite Hrest.
      * destruct Hrest as [Hbad Hrest]. split; [done|]. by injection Hrest as -> ->.
    + exists [], (line :: f). by split_and!.
Qed.

(** X13. On a gzip file [load_data] tests the path, opens the file and
    then reads line by line, and it reads nothing after the first line that
    does not parse: the lines before it parsed, and the call raises
    [JSONDecodeError] there. When every line parses, every line is read
    once. *)
Theorem load_data_reads_up_to_unparsed json_loads fs path f :
  fs !! path = Some (GzipText f) ->
  exists good rest,
    f = (good ++ rest)%list /\ Forall (fun line => is_Some (json_loads line)) good /\
    match rest with
    | [] =>
        (load_data json_loads fs path).1
        = PathExists path :: OpenFile path :: replicate (length f) (ReadLine path)
    | bad :: _ =>
        json_loads bad = None /\
        load_data json_loads fs path
        = (PathExists path :: OpenFile path :: replicate (S (length good)) (ReadLine path),
           Raise JSONDecodeError)
    end.
Proof.
  intros Hf. unfold load_data. rewrite Hf.
  destruct (read_lines_trace json_loads path f []) as (good & rest & Hsplit & Hgood & H).
  exists good, rest. split_and!; [done..|].
  destruct (read_lines json_loads path f []) as [trace r].
  destruct rest as [|bad rest]; simpl in *.
  - by rewrite H.
  - destruct H as [Hbad H]. split; [done|]. by injection H as -> ->.
Qed.

Lemma load_data_reads_up_to_unparsed_witness :
  braces_files !! "works.json.gz" = Some (GzipText braces_stream) /\
  exists good rest,
    braces_stream = (good ++ rest)%list /\
    Forall (fun line => is_Some (loads_braces line)) good /\
    match rest with
    | [] =>
        (load_data loads_braces braces_files "works.json.gz").1
        = PathExists "works.json.gz" :: OpenFile "works.json.gz"
            :: replicate (length braces_stream) (ReadLine "works.json.gz")
    | bad :: _ =>
        loads_braces bad = None /\
        load_data loads_braces braces_files "works.json.gz"
        = (PathExists "works.json.gz" :: OpenFile "works.json.gz"
             :: replicate (S (length good)) (ReadLine "works.json.gz"),
           Raise JSONDecodeError)
    end.
Proof.
  assert (braces_files !! "works.json.gz" = Some (GzipText braces_stream)) as H
    by (vm_compute; reflexivity).
  split; [exact H|].
  exact (load_data_reads_up_to_unparsed loads_braces braces_files "works.json.gz"
           braces_stream H).
Defined.

(** ** Formatting a row *)

Lemma format_columns_spec {cell} isna str upper (row : list (string * cell)) exclude index :
  forall parts,
    format_columns isna str upper row index exclude parts
    = if bool_decide (Forall (fun entry => labelled_entries entry.1 row = 1 /\
                                           is_Some (isna entry.2))
                        (kept exclude index))
      then Some (parts ++ map (part_of isna str upper) (kept exclude index))%list
      else None.
Proof.
  induction index as [|[col value] index IH]; intros parts.
  - simpl. by rewrite app_nil_r.
  - cbn [format_columns]. unfold kept in *.
    destruct (decide (col ∈ exclude)) as [Hex|Hex].
    + rewrite (bool_decide_eq_true_2 _ Hex).
      rewrite filter_cons_False by (intros Hn; by apply Hn). apply IH.
    + rewrite (bool_decide_eq_false_2 _ Hex).
      rewrite filter_cons_True by done.
      destruct (decide (labelled_entries col row = 1)) as [Hone|Hone].
      * rewrite (bool_decide_eq_true_2 _ Hone).
        destruct (isna value) as [missing|] eqn:Hna.
        -- rewrite IH.
           destruct (decide (Forall (fun entry => labelled_entries entry.1 row = 1 /\
                                                  is_Some (isna entry.2))
                               (filter (fun entry => entry.1 ∉ exclude) index)))
             as [Hall|Hall].
           ++ rewrite !bool_decide_eq_true_2; [|constructor; [simpl; by rewrite Hna|done]|done].
              rewrite <- app_assoc. simpl. unfold part_of at 2. simpl. by rewrite Hna.
           ++ rewrite (bool_decide_eq_false_2 _ Hall).
              rewrite bool_decide_eq_false_2; [done|]. by intros [_ ?]%Forall_cons.
        -- rewrite bool_decide_eq_false_2; [done|].
           intros [[_ Hs] _]%Forall_cons. simpl in Hs. rewrite Hna in Hs. by destruct Hs.
      * rewrite (bool_decide_eq_false_2 _ Hone).
        rewrite bool_decide_eq_false_2; [done|]. by intros [[? _] _]%Forall_cons.
Qed.

(** X14. When every label that is not excluded names one entry of the
    row, and the test for a missing value returns on the value of each of
    these entries, [format_row] returns, for these entries in the order of
    the row, the parts ["[LABEL: {value}]"] joined with a space, a missing
    value giving ["[LABEL: {}]"]. When a label that is not excluded names
    several entries, or the test raises on the value of such an entry (a
    list of several items), [format_row] raises. *)
Theorem format_row_parts {cell} isna str upper (row : list (string * cell)) exclude :
  format_row isna str upper row exclude
  = if bool_decide (Forall (fun entry => labelled_entries entry.1 row = 1 /\
                                         is_Some (isna entry.2))
                      (kept exclude row))
    then Some (String.concat " " (map (part_of isna str upper) (kept exclude row)))
    else None.
Proof.
  unfold format_row. rewrite format_columns_spec. by case_bool_decide.
Qed.

Lemma labelled_entries_kept {cell} exclude (row : list (string * cell)) col :
  col ∉ exclude -> labelled_entries col (kept exclude row) = labelled_entries col row.
Proof.
  intros Hcol. unfold labelled_entries, kept. f_equal.
  induction row as [|[c v] row IH]; [done|].
  destruct (decide (c ∈ exclude)) as [Hin|Hnin].
  - rewrite (filter_cons_False (fun entry => entry.1 ∉ exclude)) by (intros Hn; by apply Hn).
    rewrite (filter_cons_False (fun entry => entry.1 = col)); [done|].
    simpl. by intros ->.
  - rewrite (filter_cons_True (fun entry => entry.1 ∉ exclude)) by done.
    destruct (decide (c = col)) as [->|Hne].
    + rewrite !(filter_cons_True (fun entry => entry.1 = col)) by done. by f_equal.
    + by rewrite !(filter_cons_False (fun entry => entry.1 = col)) by done.
Qed.

Lemma kept_idemp {cell} exclude (row : list (string * cell)) :
  kept [] (kept exclude row) = kept exclude row.
Proof.
  unfold kept. induction (filter _ row) as [|e l IH]; [done|].
  rewrite filter_cons_True; [by f_equal|]. apply not_elem_of_nil.
Qed.

(** X15. An excluded column leaves no trace: [format_row] gives for a row
    and a list of excluded labels what it gives, with nothing excluded, for
    the row without the entries of these labels; in particular an excluded
    label that names several entries does not make it raise. *)
Theorem format_row_excluded {cell} isna str upper (row : list (string * cell)) exclude :
  format_row isna str upper row exclude = format_row isna str upper (kept exclude row) [].
Proof.
  unfold format_row. rewrite !format_columns_spec, kept_idemp.
  assert (Forall (fun entry => labelled_entries entry.1 row = 1 /\ is_Some (isna entry.2))
            (kept exclude row)
          <-> Forall (fun entry => labelled_entries entry.1 (kept exclude row) = 1 /\
                                   is_Some (isna entry.2))
                (kept exclude row)) as Hiff.
  { rewrite !Forall_forall. split; intros H e He; destruct (H e He) as [H1 H2]; (split; [|done]).
    - rewrite labelled_entries_kept; [done|].
      unfold kept in He. by apply list_elem_of_filter in He as [? _].
    - rewrite <- (labelled_entries_kept exclude); [done|].
      unfold kept in He. by apply list_elem_of_filter in He as [? _]. }
  do 2 case_bool_decide; try done; tauto.
Qed.

(** ** The keys the flattener reads *)

Lemma py_get_agree kv kv' k d :
  dict_lookup k kv = dict_lookup k kv' -> py_get (JObj kv) k d = py_get (JObj kv') k d.
Proof. intros H. simpl. by rewrite H. Qed.

Lemma py_in_agree kv kv' k :
  dict_lookup k kv = dict_lookup k kv' -> py_in k (JObj kv) = py_in k (JObj kv').
Proof. intros H. simpl. by rewrite H. Qed.

Lemma py_getitem_agree kv kv' k :
  dict_lookup k kv = dict_lookup k kv' -> py_getitem (JObj kv) k = py_getitem (JObj kv') k.
Proof. intros H. simpl. by rewrite H. Qed.

(** X16. The flattener reads a record through 24 keys only: two records
    that hold the same under each of them give the same flat record, or raise
    the same exception, whatever other keys they have and in whatever order
    their keys come. *)
Theorem unread_keys_ignored so kv kv' :
  (forall src, src ∈ source_keys -> dict_lookup src kv = dict_lookup src kv') ->
  extract_all_fields so (JObj kv) = extract_all_fields so (JObj kv').
Proof.
  intros H.
  assert (forall k d, k ∈ source_keys -> py_get (JObj kv) k d = py_get (JObj kv') k d) as Hg
    by (intros; apply py_get_agree; auto).
  assert (forall k, k ∈ source_keys -> py_in k (JObj kv) = py_in k (JObj kv')) as Hi
    by (intros; apply py_in_agree; auto).
  assert (forall k, k ∈ source_keys -> py_getitem (JObj kv) k = py_getitem (JObj kv') k) as Hgi
    by (intros; apply py_getitem_agree; auto).
  clear H.
  unfold extract_all_fields, collect_fields, initial_parsed, alternative_titles,
    production_info, contributors, subjects, genres, languages, identifiers, notes,
    thumbnail, items, count_of, related.
  rewrite !Hg by (vm_compute; elem_here).
  rewrite !Hi by (vm_compute; elem_here).
  rewrite !Hgi by (vm_compute; elem_here).
  reflexivity.
Qed.

Lemma unread_keys_ignored_witness :
  let kv := [("title", JStr "Atlas"); ("id", JStr "w1")] in
  let kv' := [("score", JNum 1); ("id", JStr "w1"); ("title", JStr "Atlas")] in
  (forall src, src ∈ source_keys -> dict_lookup src kv = dict_lookup src kv') /\
  extract_all_fields first_occurrence (JObj kv) = extract_all_fields first_occurrence (JObj kv').
Proof.
  intros kv kv'.
  assert (forall src, src ∈ source_keys -> dict_lookup src kv = dict_lookup src kv') as H.
  { intros src Hin. unfold source_keys, source_defaults in Hin. cbn [map fst] in Hin.
    repeat (apply elem_of_cons in Hin as [->|Hin]; [reflexivity|]).
    by apply elem_of_nil in Hin. }
  split; [exact H|]. exact (unread_keys_ignored first_occurrence kv kv' H).
Defined.
